(** * arqtiva-shared-utils: environment validation, health aggregation and
      the AWS client registry, embedded from the JavaScript sources.

    - [Js]          : the fragment of JavaScript data the utilities handle
                      (plain values, objects in insertion order, exceptions,
                      console output).
    - [Environment] : utils/environment.js.
    - [Health]      : utils/health.js.
    - [Clients]     : clients/aws-clients.js.
    - [Masking]     : [maskSensitiveEnvVars] over an explicit object store.

    Modelling boundaries.  Values are plain data: no accessor properties, no
    proxies, no [toJSON] hooks, so reading a property of an object or
    serialising it runs no user code, and every value can be serialised (no
    [BigInt], no cyclic object).  [toUpperCase] is exact on ASCII text; C8
    says where that matters.  [process.env[name]] finds the variables that
    are set and, for the other names, the properties every object inherits
    from [Object.prototype].  An object is its own properties and nothing
    is written under the key [__proto__], whose assignment would set the
    prototype: the theorem that locates each client's record in the report
    (C1) excludes that name.  The clock is read as one value for the
    duration of a call.  The SDK constructors succeed and allocate a fresh
    reference.

    Definitions come first; the lemmas and the theorems follow them. *)

From Stdlib Require Import String Ascii ZArith List Bool.
From stdpp Require Import base option list gmap strings fin_maps.

Set Warnings "-register-all".
Local Open Scope Z_scope.

(* ===================================================================== *)
(** ** JavaScript data                                                     *)
(* ===================================================================== *)

Module Js.

(** Plain JavaScript data.  Numbers are the integers the library produces
    (status codes and configuration constants).  An object is its list of
    own enumerable string-keyed properties in insertion order.  [VErr m] is
    an [Error] instance (or a subclass such as [TypeError]) whose [message]
    is [m]. *)
Inductive value : Type :=
| VUndefined
| VNull
| VBool (b : bool)
| VNum (n : Z)
| VStr (s : string)
| VArr (items : list value)
| VObj (fields : list (string * value))
| VErr (message : string).

(** ToBoolean. *)
Definition truthy (v : value) : bool :=
  match v with
  | VUndefined | VNull => false
  | VBool b => b
  | VNum n => negb (n =? 0)
  | VStr s => negb (String.eqb s "")
  | VArr _ | VObj _ | VErr _ => true
  end.

(** [a || b]. *)
Definition js_or (a b : value) : value := if truthy a then a else b.

(** [v === 'lit'] for a string literal. *)
Definition is_str (v : value) (lit : string) : bool :=
  match v with
  | VStr s => String.eqb s lit
  | _ => false
  end.

(** Property read on an object's own fields: the first binding with the key,
    [undefined] when there is none. *)
Fixpoint lookup_prop (k : string) (fields : list (string * value)) : value :=
  match fields with
  | [] => VUndefined
  | (k', v) :: rest => if String.eqb k k' then v else lookup_prop k rest
  end.

(** Property write [o[k] = v], for a key other than [__proto__]: an
    existing key keeps its position, a new key is appended. *)
Fixpoint set_prop (k : string) (v : value) (fields : list (string * value))
  : list (string * value) :=
  match fields with
  | [] => [(k, v)]
  | (k', v') :: rest =>
      if String.eqb k k' then (k, v) :: rest else (k', v') :: set_prop k v rest
  end.

(** An object literal [{ k1: v1, ...spread, kn: vn }]: the properties are
    defined from left to right, a later one overriding an earlier one. *)
Definition obj_literal (props : list (string * value)) : list (string * value) :=
  fold_left (fun o kv => set_prop (fst kv) (snd kv) o) props [].

(** Completion of a computation: a value, or a thrown JavaScript value. *)
Inductive result (A : Type) : Type :=
| Ok (a : A)
| Throw (e : value).
Arguments Ok {A} a.
Arguments Throw {A} e.

(** Computations write lines to the console ([console.warn]) and complete
    normally or abruptly. *)
Definition M (A : Type) : Type := (list string * result A)%type.

Definition ret {A} (a : A) : M A := ([], Ok a).
Definition throw {A} (e : value) : M A := ([], Throw e).
Definition console_warn (line : string) : M unit := ([line], Ok tt).

Definition bind {A B} (m : M A) (f : A -> M B) : M B :=
  match m with
  | (out, Ok a) => let '(out', r) := f a in (out ++ out', r)
  | (out, Throw e) => (out, Throw e)
  end.

(** [try { body } catch (error) { handler }]. *)
Definition try_catch {A} (body : M A) (handler : value -> M A) : M A :=
  match body with
  | (out, Ok a) => (out, Ok a)
  | (out, Throw e) => let '(out', r) := handler e in (out ++ out', r)
  end.

Definition outcome {A} (m : M A) : result A := snd m.
Definition console {A} (m : M A) : list string := fst m.

Declare Scope js_scope.
Delimit Scope js_scope with js.
Notation "x <- m ;; k" := (bind m (fun x => k))
  (at level 100, m at next level, right associativity) : js_scope.
Notation "m ;;; k" := (bind m (fun _ => k))
  (at level 100, right associativity) : js_scope.

(** Property read [v.k] on an arbitrary value: a [TypeError] on [null] and
    [undefined]; the own field on an object; [message] on an [Error];
    [undefined] on the other primitives and on arrays (for the property
    names used here). *)
Definition get_prop (v : value) (k : string) : M value :=
  match v with
  | VUndefined =>
      throw (VErr ("Cannot read properties of undefined (reading '" +:+ k +:+ "')"))
  | VNull =>
      throw (VErr ("Cannot read properties of null (reading '" +:+ k +:+ "')"))
  | VObj fields => ret (lookup_prop k fields)
  | VErr m => ret (if String.eqb k "message" then VStr m else VUndefined)
  | VBool _ | VNum _ | VStr _ | VArr _ => ret VUndefined
  end.

(** A thrown value is an [Error] instance. *)
Definition is_error_object (e : value) : Prop := exists m, e = VErr m.

(** A computation that throws nothing but [Error] instances. *)
Definition throws_errors_only {A} (m : M A) : Prop :=
  forall e, outcome m = Throw e -> is_error_object e.

(** [String.prototype.includes]. *)
Fixpoint includes (needle hay : string) : bool :=
  String.prefix needle hay ||
  match hay with
  | EmptyString => false
  | String _ rest => includes needle rest
  end.

(** [String.prototype.toUpperCase]: the letters a-z are raised, every other
    character is kept.  This is the function of the source on ASCII text;
    on other text the source also raises letters outside ASCII, some of them
    to ASCII letters. *)
Definition upper_ascii (c : ascii) : ascii :=
  let n := N_of_ascii c in
  if ((97 <=? n) && (n <=? 122))%N then ascii_of_N (n - 32) else c.

Fixpoint toUpperCase (s : string) : string :=
  match s with
  | EmptyString => EmptyString
  | String c rest => String (upper_ascii c) (toUpperCase rest)
  end.

(** Text on which [toUpperCase] is exactly the function of the source. *)
Definition ascii_only (s : string) : bool :=
  forallb (fun c => (N_of_ascii c <? 128)%N) (list_ascii_of_string s).

(** [Array.prototype.join]. *)
Definition join (sep : string) (l : list string) : string := String.concat sep l.

End Js.

Import Js.
Local Open Scope js_scope.

(* ===================================================================== *)
(** ** utils/environment.js                                                *)
(* ===================================================================== *)

Module Environment.

(** Properties every object inherits from [Object.prototype]; each is a
    function or an object, hence truthy and without [filter]. *)
Definition object_prototype_keys : list string :=
  [ "constructor"; "__proto__"; "hasOwnProperty"; "isPrototypeOf";
    "propertyIsEnumerable"; "toLocaleString"; "toString"; "valueOf";
    "__defineGetter__"; "__defineSetter__"; "__lookupGetter__";
    "__lookupSetter__" ].

Definition is_inherited (name : string) : bool :=
  existsb (String.eqb name) object_prototype_keys.

(** What [process.env[name]] evaluates to.  [env] holds the variables that
    are set, with their string values; a name that is not set is looked up
    along the prototype chain, where the names of [Object.prototype] are
    found. *)
Inductive env_property : Type :=
| EnvValue (v : string)
| EnvInherited
| EnvUndefined.

Definition env_lookup (env : gmap string string) (name : string) : env_property :=
  match env !! name with
  | Some v => EnvValue v
  | None => if is_inherited name then EnvInherited else EnvUndefined
  end.

(** ToBoolean of [process.env[name]]. *)
Definition env_truthy (p : env_property) : bool :=
  match p with
  | EnvValue v => negb (String.eqb v "")
  | EnvInherited => true
  | EnvUndefined => false
  end.

(** [!process.env[name]]. *)
Definition env_unset (env : gmap string string) (name : string) : bool :=
  negb (env_truthy (env_lookup env name)).

(** [process.env.NODE_ENV === lit]. *)
Definition node_env_is (env : gmap string string) (lit : string) : bool :=
  match env !! "NODE_ENV" with
  | Some v => String.eqb v lit
  | None => false
  end.

(** The [options] argument of [validateEnvironment]; [None] is a key that
    is not given, so that the destructuring default applies. *)
Record ValidateOptions : Type := {
  serviceName : option string;
  skipInProduction : option bool;
  throwOnMissing : option bool
}.

Definition no_options : ValidateOptions :=
  {| serviceName := None; skipInProduction := None; throwOnMissing := None |}.

(** The object [validateEnvironment] returns.  [v_serviceName] is [None] in
    the production short-circuit, whose literal has no such key. *)
Record Validation : Type := {
  valid : bool;
  missing : list string;
  warnings : list string;
  v_serviceName : option string
}.

(** What reaches [validateEnvironment] as [requiredVars]: an array of names,
    or a value that is no array (it has no [filter] method). *)
Inductive required_arg : Type :=
| ReqArray (names : list string)
| ReqNotArray.

(** [requiredVars.filter(varName => !process.env[varName])]. *)
Definition filter_missing (env : gmap string string) (req : required_arg)
  : M (list string) :=
  match req with
  | ReqArray names => ret (List.filter (env_unset env) names)
  | ReqNotArray => throw (VErr "requiredVars.filter is not a function")
  end.

(** The line logged and recorded for a non-empty [missing]. *)
Definition warning_line (name : string) (missing : list string) : string :=
  name +:+ ": Missing environment variables: " +:+ join ", " missing.

Definition validateEnvironment (env : gmap string string)
    (requiredVars : required_arg) (options : ValidateOptions) : M Validation :=
  let serviceName := default "unknown-service" (serviceName options) in
  let skipInProduction := default true (skipInProduction options) in
  let throwOnMissing := default false (throwOnMissing options) in
  if skipInProduction && node_env_is env "production" then
    ret {| valid := true; missing := []; warnings := []; v_serviceName := None |}
  else
    missing <- filter_missing env requiredVars ;;
    warnings <-
      (if (0 <? Z.of_nat (length missing)) then
         let warningMessage := warning_line serviceName missing in
         console_warn warningMessage ;;;
         if throwOnMissing then throw (VErr warningMessage)
         else ret [warningMessage]
       else ret []) ;;
    ret {| valid := (Z.of_nat (length missing) =? 0);
           missing := missing;
           warnings := warnings;
           v_serviceName := Some serviceName |}.

(** Own properties of [SERVICE_ENV_VARS]. *)
Definition SERVICE_ENV_VARS : list (string * list string) :=
  [ ("auth-service",
      ["DYNAMODB_TABLE_NAME"; "COGNITO_USER_POOL_ID"; "COGNITO_USER_POOL_CLIENT_ID"]);
    ("user-management-service",
      ["DYNAMODB_TABLE_NAME"; "COGNITO_USER_POOL_ID"; "COGNITO_USER_POOL_CLIENT_ID"]);
    ("organizations-service",
      ["DYNAMODB_TABLE"; "COGNITO_USER_POOL_ID"; "COGNITO_USER_POOL_CLIENT_ID"]) ].

Fixpoint assoc {A} (k : string) (l : list (string * A)) : option A :=
  match l with
  | [] => None
  | (k', a) :: rest => if String.eqb k k' then Some a else assoc k rest
  end.

(** [SERVICE_ENV_VARS[serviceName] || []]. *)
Definition required_for (name : string) : required_arg :=
  match assoc name SERVICE_ENV_VARS with
  | Some names => ReqArray names
  | None =>
      if existsb (String.eqb name) object_prototype_keys then ReqNotArray
      else ReqArray []
  end.

(** [validateEnvironment(requiredVars, { serviceName, ...options })]: a
    [serviceName] inside [options] overrides the argument. *)
Definition validateServiceEnvironment (env : gmap string string)
    (name : string) (options : ValidateOptions) : M Validation :=
  let requiredVars := required_for name in
  validateEnvironment env requiredVars
    {| serviceName := Some (default name (serviceName options));
       skipInProduction := skipInProduction options;
       throwOnMissing := throwOnMissing options |}.

(** [process.env.X || fallback]. *)
Definition env_or (env : gmap string string) (name fallback : string) : string :=
  match env !! name with
  | Some v => if String.eqb v "" then fallback else v
  | None => fallback
  end.

Record EnvironmentInfo : Type := {
  nodeEnv : string;
  awsRegion : string;
  isTest : bool;
  isProduction : bool;
  isDevelopment : bool;
  serviceVersion : string;
  timestamp : string
}.

(** [now] is the reading of [new Date().toISOString()]. *)
Definition getEnvironmentInfo (env : gmap string string) (now : string)
  : EnvironmentInfo :=
  {| nodeEnv := env_or env "NODE_ENV" "unknown";
     awsRegion := env_or env "AWS_REGION" "us-east-1";
     isTest := node_env_is env "test";
     isProduction := node_env_is env "production";
     isDevelopment := node_env_is env "development" || node_env_is env "dev";
     serviceVersion := env_or env "SERVICE_VERSION" "1.0.0";
     timestamp := now |}.

Definition isTestEnvironment (env : gmap string string) : bool :=
  node_env_is env "test"
  || negb (env_unset env "JEST_WORKER_ID")
  || match env !! "npm_lifecycle_event" with
     | Some v => includes "test" v
     | None => false
     end.

Definition isProductionEnvironment (env : gmap string string) : bool :=
  node_env_is env "production".

(** What [getEnvVar] returns: the variable's value, the property
    [process.env] inherits under that name, or [defaultValue] ([None] is
    [null]). *)
Inductive env_result : Type :=
| ResultValue (v : string)
| ResultInherited (name : string)
| ResultDefault (d : option string).

(** [getEnvVar(varName, defaultValue = null, required = false)]; a
    [defaultValue] of [None] is [null]. *)
Definition getEnvVar (env : gmap string string) (varName : string)
    (defaultValue : option string) (required : bool) : M env_result :=
  let value := env_lookup env varName in
  if negb (env_truthy value) && required then
    throw (VErr ("Required environment variable " +:+ varName +:+ " is not set"))
  else
    ret (if env_truthy value then
           match value with
           | EnvValue v => ResultValue v
           | _ => ResultInherited varName
           end
         else ResultDefault defaultValue).

End Environment.

(* ===================================================================== *)
(** ** utils/health.js                                                     *)
(* ===================================================================== *)

Module Health.
Import Environment.

(** What a call observes of its process: the environment variables, the
    clock (read as one value for the duration of a call) and the readings
    of [process.uptime()], [process.memoryUsage()] and [process.cpuUsage()]. *)
Record Runtime : Type := {
  env : gmap string string;
  now : string;
  uptime : value;
  memoryUsage : value;
  cpuUsage : value
}.

(** [overallStatus]. *)
Inductive overall : Type := healthy | degraded | unhealthy.

Definition overall_str (s : overall) : string :=
  match s with
  | healthy => "healthy"
  | degraded => "degraded"
  | unhealthy => "unhealthy"
  end.

(** An entry of the [clients] argument, by what the loop body observes of it:
    - [ClientAbsent]: a falsy value ([null], [undefined], ...);
    - [ClientPlain]: a truthy value whose [getClientHealth] is no function;
    - [ClientReporting r]: a truthy value with a [getClientHealth] function;
      [r] is the completion of [await client.getClientHealth()], a returned
      record or a thrown value (a rejected promise included). *)
Inductive client : Type :=
| ClientAbsent
| ClientPlain
| ClientReporting (health : result value).

Record HealthOptions : Type := {
  checkEnvironment : option bool;
  checkClients : option bool;
  includeMetrics : option bool
}.

(** The two mutable locals of [performHealthCheck]: [checks] and
    [overallStatus]. *)
Definition check_state : Type := (list (string * value) * overall)%type.

Definition str_array (l : list string) : value := VArr (List.map VStr l).

(** The record literals of [performHealthCheck]. *)
Definition environment_record (envValidation : Validation) : value :=
  VObj (obj_literal
    [ ("status", VStr (if valid envValidation then "ok" else "warning"));
      ("missing", str_array (missing envValidation));
      ("warnings", str_array (warnings envValidation)) ]).

Definition error_record (message : value) : value :=
  VObj (obj_literal [ ("status", VStr "error"); ("error", message) ]).

Definition initialized_record : value :=
  VObj (obj_literal [ ("status", VStr "ok"); ("initialized", VBool true) ]).

Definition uninitialized_record : value :=
  VObj (obj_literal
    [ ("status", VStr "warning"); ("initialized", VBool false);
      ("message", VStr "Client not initialized") ]).

(** The [if (checkEnvironment) { try ... catch ... }] block, over the
    completion of the [validateServiceEnvironment] call. *)
Definition environmentCheck (validation : M Validation) (st : check_state)
  : M check_state :=
  let '(checks, overallStatus) := st in
  try_catch
    (envValidation <- validation ;;
     let checks := set_prop "environment" (environment_record envValidation) checks in
     ret (checks, if negb (valid envValidation) then degraded else overallStatus))
    (fun error =>
       message <- get_prop error "message" ;;
       ret (set_prop "environment" (error_record message) checks, unhealthy)).

(** One iteration of the loop over [Object.entries(clients)]. *)
Definition clientCheck (entry : string * client) (st : check_state)
  : M check_state :=
  let '(clientName, client) := entry in
  let '(checks, overallStatus) := st in
  try_catch
    (match client with
     | ClientReporting health =>
         record <- ([], health) ;;
         ret (set_prop clientName record checks, overallStatus)
     | ClientPlain =>
         ret (set_prop clientName initialized_record checks, overallStatus)
     | ClientAbsent =>
         ret (set_prop clientName uninitialized_record checks,
              match overallStatus with
              | healthy => degraded
              | _ => overallStatus
              end)
     end)
    (fun error =>
       message <- get_prop error "message" ;;
       ret (set_prop clientName (error_record message) checks, unhealthy)).

Fixpoint clientChecks (entries : list (string * client)) (st : check_state)
  : M check_state :=
  match entries with
  | [] => ret st
  | entry :: rest => st' <- clientCheck entry st ;; clientChecks rest st'
  end.

Definition info_fields (info : EnvironmentInfo) : list (string * value) :=
  [ ("nodeEnv", VStr (nodeEnv info));
    ("awsRegion", VStr (awsRegion info));
    ("isTest", VBool (isTest info));
    ("isProduction", VBool (isProduction info));
    ("isDevelopment", VBool (isDevelopment info));
    ("serviceVersion", VStr (serviceVersion info));
    ("timestamp", VStr (timestamp info)) ].

(** [{ status: overallStatus, service: serviceName,
       ...getEnvironmentInfo(), checks }]. *)
Definition healthReport (status : overall) (service : string)
    (info : EnvironmentInfo) (checks : list (string * value)) : value :=
  VObj (obj_literal
    ([ ("status", VStr (overall_str status)); ("service", VStr service) ]
     ++ info_fields info
     ++ [ ("checks", VObj checks) ])).

(** The validator call of the environment block:
    [validateServiceEnvironment(serviceName, { skipInProduction: false })]. *)
Definition health_validation (rt : Runtime) (serviceName : string) : M Validation :=
  validateServiceEnvironment (env rt) serviceName
    {| serviceName := None;
       skipInProduction := Some false (* Always check in health checks *);
       throwOnMissing := None |}.

(** The state after [if (checkEnvironment) { ... }], from the initial
    [checks = {}] and [overallStatus = 'healthy']. *)
Definition after_environment (rt : Runtime) (serviceName : string)
    (options : HealthOptions) : M check_state :=
  if default true (checkEnvironment options)
  then environmentCheck (health_validation rt serviceName) ([], healthy)
  else ret ([], healthy).

(** The state after the environment block and the client loop.  [clients]
    is the [Object.entries] sequence of the argument; [None] stands for
    [null] (skipped by the guard) and for [undefined] (defaulted to the
    empty object). *)
Definition runChecks (rt : Runtime) (serviceName : string)
    (clients : option (list (string * client))) (options : HealthOptions)
  : M check_state :=
  let checkClients := default true (checkClients options) in
  st <- after_environment rt serviceName options ;;
  match checkClients, clients with
  | true, Some entries => clientChecks entries st
  | _, _ => ret st
  end.

(** [if (includeMetrics) { checks.performance = { ... } }]. *)
Definition with_metrics (rt : Runtime) (options : HealthOptions)
    (checks : list (string * value)) : list (string * value) :=
  if default false (includeMetrics options) then
    set_prop "performance"
      (VObj (obj_literal
         [ ("uptime", uptime rt); ("memoryUsage", memoryUsage rt);
           ("cpuUsage", cpuUsage rt) ]))
      checks
  else checks.

Definition performHealthCheck (rt : Runtime) (serviceName : string)
    (clients : option (list (string * client))) (options : HealthOptions)
  : M value :=
  st <- runChecks rt serviceName clients options ;;
  let '(checks, overallStatus) := st in
  ret (healthReport overallStatus serviceName
         (getEnvironmentInfo (env rt) (now rt))
         (with_metrics rt options checks)).

Definition basicHealthCheck (rt : Runtime) (serviceName : string) : value :=
  VObj (obj_literal
    [ ("status", VStr "healthy"); ("service", VStr serviceName);
      ("timestamp", VStr (now rt)) ]).

(** The object [createLambdaHealthResponse] returns.  [body] is the document
    handed to [JSON.stringify]; its serialisation to text is not part of the
    model. *)
Record LambdaResponse : Type := {
  statusCode : Z;
  headers : list (string * value);
  body : value
}.

Definition corsHeaders : list (string * value) :=
  obj_literal
    [ ("Access-Control-Allow-Origin", VStr "*");
      ("Access-Control-Allow-Headers",
         VStr "Content-Type,X-Amz-Date,Authorization,X-Api-Key,X-Amz-Security-Token");
      ("Access-Control-Allow-Methods", VStr "GET,OPTIONS") ].

(** [createLambdaHealthResponse(healthData, statusCode = 200)]; a
    [statusCode] of [None] is an argument that is not supplied.  [body] is
    the document handed to [JSON.stringify], which returns a string for
    every plain-data document. *)
Definition createLambdaHealthResponse (rt : Runtime) (healthData : value)
    (statusCode : option Z) : M LambdaResponse :=
  let statusCode := default 200 statusCode in
  service <- get_prop healthData "service" ;;
  version <- get_prop healthData "version" ;;
  ret {| statusCode := statusCode;
         headers :=
           obj_literal
             ([ ("Content-Type", VStr "application/json");
                ("Cache-Control", VStr "no-cache, no-store, must-revalidate");
                ("Pragma", VStr "no-cache");
                ("Expires", VStr "0") ]
              ++ corsHeaders);
         body :=
           VObj (obj_literal
             [ ("data", healthData);
               ("meta", VObj (obj_literal
                  [ ("service", js_or service (VStr "unknown-service"));
                    ("version", js_or version (VStr "1.0.0"));
                    ("apiVersion", VStr "v1");
                    ("timestamp", VStr (now rt));
                    ("environment",
                       VStr (env_or (env rt) "NODE_ENV" "unknown")) ])) ]) |}.

(** The inbound request, as the handler is called with it: [null],
    [undefined], or any other value.  Every other event is given by the
    value of its [path] property ([VUndefined] when it has none, as for a
    number or a string passed as the event) and by its
    [queryStringParameters] ([None] when that is [null], missing or holds no
    string-valued parameters). *)
Inductive Event : Type :=
| EventNull
| EventUndefined
| EventObject (path : value) (queryStringParameters : option (gmap string string)).

(** [event.queryStringParameters?.metrics === 'true'], evaluated after the
    guard, hence on an event that is not nullish. *)
Definition metrics_requested (event : Event) : bool :=
  match event with
  | EventObject _ (Some q) =>
      match q !! "metrics" with
      | Some v => String.eqb v "true"
      | None => false
      end
  | _ => false
  end.

(** [path.includes('/health')] on a truthy [path]: the substring test of
    [String.prototype.includes], the membership test of
    [Array.prototype.includes]; every other value has no [includes] to
    call. *)
Definition path_includes (path : value) : M bool :=
  match path with
  | VStr p => ret (includes "/health" p)
  | VArr items => ret (existsb (fun item => is_str item "/health") items)
  | _ => throw (VErr "event.path.includes is not a function")
  end.

(** The guard [!event.path || !event.path.includes('/health')]. *)
Definition not_health_path (event : Event) : M bool :=
  match event with
  | EventNull =>
      throw (VErr "Cannot read properties of null (reading 'path')")
  | EventUndefined =>
      throw (VErr "Cannot read properties of undefined (reading 'path')")
  | EventObject path _ =>
      if negb (truthy path) then ret true
      else (found <- path_includes path ;; ret (negb found))
  end.

(** The options the middleware passes to [performHealthCheck]. *)
Definition middleware_options (event : Event) : HealthOptions :=
  {| checkEnvironment := Some true;
     checkClients := Some true;
     includeMetrics := Some (metrics_requested event) |}.

(** [status === 'healthy' ? 200 : status === 'degraded' ? 200 : 503]. *)
Definition status_code_for (status : value) : Z :=
  if is_str status "healthy" then 200
  else if is_str status "degraded" then 200 else 503.

(** The [catch (error)] block of the middleware. *)
Definition middleware_catch (rt : Runtime) (serviceName : string) (error : value)
  : M (option LambdaResponse) :=
  message <- get_prop error "message" ;;
  let errorHealth :=
    VObj (obj_literal
      [ ("status", VStr "unhealthy"); ("service", VStr serviceName);
        ("error", message); ("timestamp", VStr (now rt)) ]) in
  response <- createLambdaHealthResponse rt errorHealth (Some 503) ;;
  ret (Some response).

(** The function [healthCheckMiddleware(serviceName, clients)] returns,
    applied to [event]; [None] is the returned [null], a [Throw] is the
    rejection of the promise the [async] function returns.  The guard is
    evaluated before the [try] block is entered. *)
Definition healthCheckMiddleware (rt : Runtime) (serviceName : string)
    (clients : option (list (string * client))) (event : Event)
  : M (option LambdaResponse) :=
  skip <- not_health_path event ;;
  if skip then ret None
  else
    try_catch
      (healthData <- performHealthCheck rt serviceName clients
                       (middleware_options event) ;;
       status <- get_prop healthData "status" ;;
       let statusCode := status_code_for status in
       response <- createLambdaHealthResponse rt healthData (Some statusCode) ;;
       ret (Some response))
      (middleware_catch rt serviceName).


(** [checkAWSClientHealth(awsClient, clientType = 'unknown')]; a
    [clientType] of [None] is an argument that is not supplied. *)
Definition checkAWSClientHealth (awsClient : value) (clientType : option string)
  : M value :=
  let clientType := default "unknown" clientType in
  if negb (truthy awsClient) then
    ret (VObj (obj_literal
      [ ("status", VStr "error"); ("type", VStr clientType);
        ("initialized", VBool false);
        ("message", VStr "Client not initialized") ]))
  else
    try_catch
      (own_config <- get_prop awsClient "config" ;;
       let config := js_or own_config (VObj []) in
       region <- get_prop config "region" ;;
       maxAttempts <- get_prop config "maxAttempts" ;;
       requestTimeout <- get_prop config "requestTimeout" ;;
       ret (VObj (obj_literal
         [ ("status", VStr "ok"); ("type", VStr clientType);
           ("initialized", VBool true);
           ("region", js_or region (VStr "unknown"));
           ("maxAttempts", js_or maxAttempts (VStr "default"));
           ("timeout", js_or requestTimeout (VStr "default")) ])))
      (fun error =>
         message <- get_prop error "message" ;;
         ret (VObj (obj_literal
           [ ("status", VStr "error"); ("type", VStr clientType);
             ("initialized", VBool true); ("error", message) ]))).

(** *** Vocabulary of the severity order *)

Definition severity (s : overall) : nat :=
  match s with
  | healthy => 0
  | degraded => 1
  | unhealthy => 2
  end.

(** [a] is at most as severe as [b]. *)
Definition sev_le (a b : overall) : Prop := (severity a <= severity b)%nat.

Definition sev_max (a b : overall) : overall :=
  if (severity a <=? severity b)%nat then b else a.

(** The [status] of a per-check record. *)
Inductive check_status : Type := StatusOk | StatusWarning | StatusError.

Definition check_status_str (s : check_status) : string :=
  match s with
  | StatusOk => "ok"
  | StatusWarning => "warning"
  | StatusError => "error"
  end.

(** The status [performHealthCheck] itself gives the sub-check of a client;
    [None] when the record is the one the client's own [getClientHealth]
    returned, which is stored as it is. *)
Definition assigned_status (c : client) : option check_status :=
  match c with
  | ClientAbsent => Some StatusWarning
  | ClientPlain => Some StatusOk
  | ClientReporting (Ok _) => None
  | ClientReporting (Throw _) => Some StatusError
  end.

(** The status of the environment sub-check, from the completion of the
    validator call. *)
Definition environment_status (v : result Validation) : check_status :=
  match v with
  | Ok r => if valid r then StatusOk else StatusWarning
  | Throw _ => StatusError
  end.

(** The throwing clients whose thrown value has no readable [message]. *)
Definition throws_nullish (c : client) : Prop :=
  c = ClientReporting (Throw VNull) \/ c = ClientReporting (Throw VUndefined).

(** The statuses [performHealthCheck] assigns in one call, in the order of
    the sub-checks. *)
Definition assigned_statuses (rt : Runtime) (name : string)
    (clients : option (list (string * client))) (options : HealthOptions)
  : list check_status :=
  (if default true (checkEnvironment options)
   then [environment_status (outcome (health_validation rt name))] else [])
  ++
  (if default true (checkClients options)
   then omap assigned_status (default [] clients).*2 else []).

Definition is_error (s : check_status) : bool :=
  match s with StatusError => true | _ => false end.

Definition is_warning (s : check_status) : bool :=
  match s with StatusWarning => true | _ => false end.

(** The least overall status that is at least as severe as every status of
    the list: [ok] asks for [healthy], [warning] for [degraded], [error] for
    [unhealthy]. *)
Definition worst (l : list check_status) : overall :=
  if existsb is_error l then unhealthy
  else if existsb is_warning l then degraded
  else healthy.

(** [record.status]. *)
Definition status_field (record : value) : value :=
  match record with
  | VObj fields => lookup_prop "status" fields
  | _ => VUndefined
  end.

(** [healthData.status], read back as an overall status. *)
Definition reported_status (healthData : value) : option overall :=
  match status_field healthData with
  | VStr s =>
      if String.eqb s "healthy" then Some healthy
      else if String.eqb s "degraded" then Some degraded
      else if String.eqb s "unhealthy" then Some unhealthy
      else None
  | _ => None
  end.

(** [healthData.checks[name]]. *)
Definition reported_check (healthData : value) (name : string) : value :=
  match healthData with
  | VObj fields =>
      match lookup_prop "checks" fields with
      | VObj checks => lookup_prop name checks
      | _ => VUndefined
      end
  | _ => VUndefined
  end.

(** The headers every envelope carries. *)
Definition fixed_headers : list (string * value) :=
  [ ("Content-Type", VStr "application/json");
    ("Cache-Control", VStr "no-cache, no-store, must-revalidate");
    ("Pragma", VStr "no-cache");
    ("Expires", VStr "0");
    ("Access-Control-Allow-Origin", VStr "*");
    ("Access-Control-Allow-Headers",
       VStr "Content-Type,X-Amz-Date,Authorization,X-Api-Key,X-Amz-Security-Token");
    ("Access-Control-Allow-Methods", VStr "GET,OPTIONS") ].

(** [JSON.parse(response.body).data] and [.meta]. *)
Definition body_data (r : LambdaResponse) : value :=
  match body r with
  | VObj fields => lookup_prop "data" fields
  | _ => VUndefined
  end.

(** The state the environment block leaves (the block itself never
    throws); [([], healthy)] stands where it would. *)
Definition after_state (rt : Runtime) (serviceName : string)
    (options : HealthOptions) : check_state :=
  match outcome (after_environment rt serviceName options) with
  | Ok st => st
  | Throw _ => ([], healthy)
  end.

(** The record the loop body stores for a client (when it completes). *)
Definition written_record (c : client) : value :=
  match c with
  | ClientAbsent => uninitialized_record
  | ClientPlain => initialized_record
  | ClientReporting (Ok record) => record
  | ClientReporting (Throw e) =>
      error_record
        match outcome (get_prop e "message") with
        | Ok message => message
        | Throw _ => VUndefined
        end
  end.

(** [record.k] of a record that is an object. *)
Definition record_field (record : value) (k : string) : value :=
  match record with
  | VObj fields => lookup_prop k fields
  | _ => VUndefined
  end.


(** The record [performHealthCheck] stores under [performance]. *)
Definition performance_record (rt : Runtime) : value :=
  VObj (obj_literal
    [ ("uptime", uptime rt); ("memoryUsage", memoryUsage rt);
      ("cpuUsage", cpuUsage rt) ]).

Definition body_meta (r : LambdaResponse) (k : string) : value :=
  match body r with
  | VObj fields =>
      match lookup_prop "meta" fields with
      | VObj meta => lookup_prop k meta
      | _ => VUndefined
      end
  | _ => VUndefined
  end.

End Health.

(* ===================================================================== *)
(** ** clients/aws-clients.js                                              *)
(* ===================================================================== *)

Module Clients.
Import Environment.

(** Object identity: two handles are the same reference iff they are equal. *)
Definition handle : Type := positive.

(** The configuration both SDK constructors receive. *)
Record ClientConfig : Type := {
  region : string;
  maxAttempts : Z;
  requestTimeout : Z;
  keepAlive : bool;
  maxSockets : Z
}.

Record TranslateConfig : Type := {
  removeUndefinedValues : bool;
  convertEmptyValues : bool;
  convertClassInstanceToMap : bool;
  wrapNumbers : bool
}.

(** The objects a handle can refer to. *)
Inductive client_object : Type :=
| CognitoIdentityProviderClient (config : ClientConfig)
| DynamoDBClient (config : ClientConfig)
| DynamoDBDocumentClient (base : handle) (translate : TranslateConfig)
| Substitute.

(** A global a test harness may set: not set (it reads [undefined]), set to
    [null], or set to an object. *)
Inductive global_ref : Type :=
| GlobalUnset
| GlobalNull
| GlobalObject (h : handle).

(** The object a global holds, if it holds one: the truthy case. *)
Definition global_object (g : global_ref) : option handle :=
  match g with
  | GlobalObject h => Some h
  | GlobalUnset | GlobalNull => None
  end.

(** The module's three [let] bindings ([None] is [null], their initial
    value), the two globals a test harness may set, and every object that
    exists so far. *)
Record State : Type := {
  heap : gmap handle client_object;
  cognitoClient : option handle;
  dynamoDbClient : option handle;
  dynamoDbDocumentClient : option handle;
  mockCognitoClient : global_ref;
  mockDynamoDbDocumentClient : global_ref
}.

(** [new C(...)]: a reference that no existing object has. *)
Definition alloc (o : client_object) (heap : gmap handle client_object)
  : handle * gmap handle client_object :=
  let h := fresh (dom heap) in (h, <[h := o]> heap).

Definition sdk_config (env : gmap string string) : ClientConfig :=
  {| region := env_or env "AWS_REGION" "us-east-1";
     maxAttempts := 3;
     requestTimeout := 30000;
     keepAlive := true;
     maxSockets := 50 |}.

Definition createCognitoClient (env : gmap string string) (s : State)
  : handle * State :=
  match cognitoClient s with
  | Some c => (c, s)
  | None =>
      match node_env_is env "test", global_object (mockCognitoClient s) with
      | true, Some m =>
          (m, {| heap := heap s;
                 cognitoClient := Some m;
                 dynamoDbClient := dynamoDbClient s;
                 dynamoDbDocumentClient := dynamoDbDocumentClient s;
                 mockCognitoClient := mockCognitoClient s;
                 mockDynamoDbDocumentClient := mockDynamoDbDocumentClient s |})
      | _, _ =>
          let '(c, heap') :=
            alloc (CognitoIdentityProviderClient (sdk_config env)) (heap s) in
          (c, {| heap := heap';
                 cognitoClient := Some c;
                 dynamoDbClient := dynamoDbClient s;
                 dynamoDbDocumentClient := dynamoDbDocumentClient s;
                 mockCognitoClient := mockCognitoClient s;
                 mockDynamoDbDocumentClient := mockDynamoDbDocumentClient s |})
      end
  end.

Definition createDynamoDbDocumentClient (env : gmap string string) (s : State)
  : handle * State :=
  match dynamoDbDocumentClient s with
  | Some d => (d, s)
  | None =>
      match node_env_is env "test", global_object (mockDynamoDbDocumentClient s) with
      | true, Some m =>
          (m, {| heap := heap s;
                 cognitoClient := cognitoClient s;
                 dynamoDbClient := dynamoDbClient s;
                 dynamoDbDocumentClient := Some m;
                 mockCognitoClient := mockCognitoClient s;
                 mockDynamoDbDocumentClient := mockDynamoDbDocumentClient s |})
      | _, _ =>
          let '(b, heap1) :=
            match dynamoDbClient s with
            | Some b => (b, heap s)
            | None => alloc (DynamoDBClient (sdk_config env)) (heap s)
            end in
          let '(d, heap2) :=
            alloc (DynamoDBDocumentClient b
                     {| removeUndefinedValues := true;
                        convertEmptyValues := false;
                        convertClassInstanceToMap := false;
                        wrapNumbers := false |})
                  heap1 in
          (d, {| heap := heap2;
                 cognitoClient := cognitoClient s;
                 dynamoDbClient := Some b;
                 dynamoDbDocumentClient := Some d;
                 mockCognitoClient := mockCognitoClient s;
                 mockDynamoDbDocumentClient := mockDynamoDbDocumentClient s |})
      end
  end.

Definition getCognitoClient := createCognitoClient.
Definition getDynamoDbClient := createDynamoDbDocumentClient.

(** Returns the lines written with [console.log] and the new state. *)
Definition initializeClients (env : gmap string string) (s : State)
  : list string * State :=
  if negb (node_env_is env "test") then
    let '(_, s1) := createCognitoClient env s in
    let '(_, s2) := createDynamoDbDocumentClient env s1 in
    (["AWS clients initialized for Lambda execution context reuse"], s2)
  else ([], s).

Definition resetClients (s : State) : State :=
  {| heap := heap s;
     cognitoClient := None;
     dynamoDbClient := None;
     dynamoDbDocumentClient := None;
     mockCognitoClient := mockCognitoClient s;
     mockDynamoDbDocumentClient := mockDynamoDbDocumentClient s |}.

Record KindHealth : Type := { initialized : bool; isMock : bool }.

(** [slot === global.mock]: the same object, or an empty slot ([null]) and a
    global set to [null]; an unset global is [undefined], which is not
    strictly equal to [null]. *)
Definition same_ref (slot : option handle) (glob : global_ref) : bool :=
  match slot, glob with
  | Some a, GlobalObject b => bool_decide (a = b)
  | None, GlobalNull => true
  | _, _ => false
  end.

Definition getClientHealth (env : gmap string string) (s : State)
  : KindHealth * KindHealth :=
  ( {| initialized := bool_decide (is_Some (cognitoClient s));
       isMock := node_env_is env "test"
                 && same_ref (cognitoClient s) (mockCognitoClient s) |},
    {| initialized := bool_decide (is_Some (dynamoDbDocumentClient s));
       isMock := node_env_is env "test"
                 && same_ref (dynamoDbDocumentClient s)
                             (mockDynamoDbDocumentClient s) |} ).

(** The two kinds of client a caller can ask for. *)
Inductive kind : Type := Cognito | DynamoDb.

Definition getClient (k : kind) (env : gmap string string) (s : State)
  : handle * State :=
  match k with
  | Cognito => getCognitoClient env s
  | DynamoDb => getDynamoDbClient env s
  end.

Definition slot (k : kind) (s : State) : option handle :=
  match k with
  | Cognito => cognitoClient s
  | DynamoDb => dynamoDbDocumentClient s
  end.

Definition substitute (k : kind) (s : State) : option handle :=
  match k with
  | Cognito => global_object (mockCognitoClient s)
  | DynamoDb => global_object (mockDynamoDbDocumentClient s)
  end.

(** The calls a process makes on the module, each in the environment that
    holds when it is made. *)
Inductive call : Type :=
| CallGet (k : kind)
| CallInitialize
| CallReset
| CallHealth.

Definition step (c : call) (env : gmap string string) (s : State)
  : option handle * State :=
  match c with
  | CallGet k => let '(h, s') := getClient k env s in (Some h, s')
  | CallInitialize => (None, snd (initializeClients env s))
  | CallReset => (None, resetClients s)
  | CallHealth => (None, s)
  end.

(** Runs a sequence of calls; returns the handles handed out, oldest first. *)
Fixpoint run (calls : list (call * gmap string string)) (s : State)
  : list handle * State :=
  match calls with
  | [] => ([], s)
  | (c, env) :: rest =>
      let '(r, s1) := step c env s in
      let '(hs, s2) := run rest s1 in
      (match r with Some h => h :: hs | None => hs end, s2)
  end.

Definition is_reset (c : call) : bool :=
  match c with CallReset => true | _ => false end.

(** Every reference the state holds names an existing object. *)
Definition wf (s : State) : Prop :=
  forall h,
    (cognitoClient s = Some h \/ dynamoDbClient s = Some h \/
     dynamoDbDocumentClient s = Some h \/
     mockCognitoClient s = GlobalObject h \/
     mockDynamoDbDocumentClient s = GlobalObject h) ->
    h ∈ dom (heap s).

(** Whether a call fills the slot of kind [k] when that slot is empty. *)
Definition fills (k : kind) (c : call * gmap string string) : bool :=
  match c.1, k with
  | CallGet Cognito, Cognito | CallGet DynamoDb, DynamoDb => true
  | CallInitialize, _ => negb (node_env_is c.2 "test")
  | _, _ => false
  end.

(** The entry of [getClientHealth()] for a kind. *)
Definition health_of (k : kind) (env : gmap string string) (s : State)
  : KindHealth :=
  match k with
  | Cognito => (getClientHealth env s).1
  | DynamoDb => (getClientHealth env s).2
  end.

(** What every call keeps: the registered substitutes and the objects that
    exist already. *)
Definition extends (s s' : State) : Prop :=
  mockCognitoClient s' = mockCognitoClient s /\
  mockDynamoDbDocumentClient s' = mockDynamoDbDocumentClient s /\
  dom (heap s) ⊆ dom (heap s').

(** The substitute [getClient] takes for an empty slot, if any. *)
Definition substitute_taken (k : kind) (env : gmap string string) (s : State)
  : option handle :=
  if node_env_is env "test" then substitute k s else None.

End Clients.

(* ===================================================================== *)
(** ** maskSensitiveEnvVars, with objects held in a store                  *)
(* ===================================================================== *)

Module Masking.

(** Objects live in a store and are passed by reference, so that a write to
    one object is visible through every reference to it. *)
Definition loc : Type := positive.

Definition sensitiveKeys : list string :=
  [ "COGNITO_USER_POOL_CLIENT_SECRET"; "AWS_ACCESS_KEY_ID";
    "AWS_SECRET_ACCESS_KEY"; "DATABASE_PASSWORD"; "API_KEY"; "SECRET" ].

Definition MASKED : string := "***MASKED***".

(** [sensitiveKeys.some(sensitive => key.toUpperCase().includes(sensitive))]. *)
Definition is_sensitive (key : string) : bool :=
  existsb (fun sensitive => includes sensitive (toUpperCase key)) sensitiveKeys.

(** [o[key] = v] on the object at [l]. *)
Definition store_write (l : loc) (key : string) (v : value)
    (σ : gmap loc (gmap string value)) : gmap loc (gmap string value) :=
  match σ !! l with
  | Some o => <[l := <[key := v]> o]> σ
  | None => σ
  end.

(** [Object.keys(o)]. *)
Definition object_keys (o : gmap string value) : list string :=
  (map_to_list o).*1.

(** [maskSensitiveEnvVars(env = process.env)]: [env] is [None] when the
    argument is not supplied.  Returns the store after the call and the
    reference it returns. *)
Definition maskSensitiveEnvVars (process_env : loc) (env : option loc)
    (σ : gmap loc (gmap string value)) : gmap loc (gmap string value) * loc :=
  let env := default process_env env in
  let masked := fresh (dom σ) in
  let σ1 := <[masked := default ∅ (σ !! env)]> σ in
  let σ2 :=
    fold_left
      (fun σ key =>
         if is_sensitive key then store_write masked key (VStr MASKED) σ else σ)
      (object_keys (default ∅ (σ1 !! masked)))
      σ1 in
  (σ2, masked).

(** The object the loop leaves after visiting the keys [ks]. *)
Definition mask_keys (ks : list string) (o : gmap string value)
  : gmap string value :=
  fold_left
    (fun o key => if is_sensitive key then <[key := VStr MASKED]> o else o)
    ks o.

(** [key] contains [fragment], letter case ignored. *)
Definition contains_ignoring_case (key fragment : string) : Prop :=
  exists pre post, toUpperCase key = pre +:+ toUpperCase fragment +:+ post.

(** The denylist in the words of the specification, to be compared with
    [sensitiveKeys]. *)
Definition denylist_as_specified : list string :=
  [ "client-secret"; "access-key-id"; "secret-access-key";
    "database-password"; "api-key"; "secret" ].

End Masking.


(* ===================================================================== *)
(** ** Sample inputs                                                       *)
(* ===================================================================== *)

Module Samples.
Import Environment Health.

(** A development machine on which only the table name is configured. *)
Definition env_partial : gmap string string :=
  {[ "NODE_ENV" := "development"; "DYNAMODB_TABLE_NAME" := "T" ]}.

Definition env_production : gmap string string :=
  {[ "NODE_ENV" := "production" ]}.

(** The environment of the end-to-end test of the readiness check. *)
Definition env_complete : gmap string string :=
  {[ "NODE_ENV" := "test"; "DYNAMODB_TABLE_NAME" := "T";
     "COGNITO_USER_POOL_ID" := "P"; "COGNITO_USER_POOL_CLIENT_ID" := "C" ]}.

Definition runtime_of (env : gmap string string) : Runtime :=
  {| env := env; now := "2024-01-27T00:00:00.000Z";
     uptime := VNum 12; memoryUsage := VObj []; cpuUsage := VObj [] |}.

Definition default_options : HealthOptions :=
  {| checkEnvironment := None; checkClients := None; includeMetrics := None |}.

(** A client map in which the document-store handle reports its own health
    record, with the given status. *)
Definition clients_self_reported (status : string)
  : option (list (string * client)) :=
  Some [ ("cognito", ClientPlain);
         ("dynamo", ClientReporting (Ok (VObj [ ("status", VStr status) ]))) ].

(** A client map with a missing handle and one whose health call throws. *)
Definition clients_absent : option (list (string * client)) :=
  Some [ ("cognito", ClientPlain); ("dynamo", ClientAbsent) ].

Definition clients_throwing (e : value) : option (list (string * client)) :=
  Some [ ("cognito", ClientReporting (Throw e)); ("dynamo", ClientPlain) ].

(** A test process: the harness has registered both substitutes. *)
Definition env_test : gmap string string := {[ "NODE_ENV" := "test" ]}.

Definition registry_with_substitutes : Clients.State :=
  {| Clients.heap := {[ 1%positive := Clients.Substitute; 2%positive := Clients.Substitute ]};
     Clients.cognitoClient := None;
     Clients.dynamoDbClient := None;
     Clients.dynamoDbDocumentClient := None;
     Clients.mockCognitoClient := Clients.GlobalObject 1%positive;
     Clients.mockDynamoDbDocumentClient := Clients.GlobalObject 2%positive |}.

(** A process that a test runner started without setting the runtime mode. *)
Definition env_jest_worker : gmap string string := {[ "JEST_WORKER_ID" := "1" ]}.

(** The mapping of the redaction example, held at location 1. *)
Definition secrets_input : gmap string value :=
  {[ "API_KEY" := VStr "x"; "NORMAL" := VStr "y" ]}.

Definition secrets_store : gmap Masking.loc (gmap string value) :=
  {[ 1%positive := secrets_input ]}.

(** A mapping whose keys are spelled with hyphens. *)
Definition hyphenated_input : gmap string value :=
  {[ "access-key-id" := VStr "AKIA"; "Api-Key" := VStr "k" ]}.

Definition hyphenated_store : gmap Masking.loc (gmap string value) :=
  {[ 1%positive := hyphenated_input ]}.

Definition options_throwing : Environment.ValidateOptions :=
  {| Environment.serviceName := Some "auth";
     Environment.skipInProduction := None;
     Environment.throwOnMissing := Some true |}.

Definition options_renamed : Environment.ValidateOptions :=
  {| Environment.serviceName := Some "gateway";
     Environment.skipInProduction := None;
     Environment.throwOnMissing := None |}.


Definition options_with_metrics : HealthOptions :=
  {| checkEnvironment := None; checkClients := None;
     includeMetrics := Some true |}.

(** A deployment that announces its version. *)
Definition env_versioned : gmap string string :=
  {[ "NODE_ENV" := "production"; "SERVICE_VERSION" := "2.3.0" ]}.

Definition health_event : Event :=
  EventObject (VStr "/api/v1/health") None.

End Samples.
(* ===================================================================== *)
(** ** Properties of utils/environment.js                                  *)
(* ===================================================================== *)

Section EnvironmentProperties.
Import Environment.

Variable env : gmap string string.

Lemma is_inherited_spec (name : string) :
  is_inherited name = false <-> name ∉ object_prototype_keys.
Proof.
  unfold is_inherited. rewrite list_elem_of_In.
  destruct (existsb _ _) eqn:E.
  - apply existsb_exists in E as (x & Hx & ->%String.eqb_eq). split; [done|tauto].
  - split; [|done]. intros _ Hin.
    assert (existsb (String.eqb name) object_prototype_keys = true); [|congruence].
    apply existsb_exists. exists name. split; [done|apply String.eqb_refl].
Qed.

(** [!process.env[name]] holds of a variable set to the empty string and of
    a name that is neither set nor inherited. *)
Lemma env_unset_spec (name : string) :
  env_unset env name = true <->
  env !! name = Some "" \/ (env !! name = None /\ is_inherited name = false).
Proof.
  unfold env_unset, env_lookup. destruct (env !! name) as [v|] eqn:E.
  - cbn. rewrite negb_involutive, String.eqb_eq. split.
    + intros ->. by left.
    + intros [[= ->]|[? _]]; congruence.
  - destruct (is_inherited name); cbn; split; auto.
    intros [?|[_ ?]]; done.
Qed.

(** For a name that [Object.prototype] does not define, [!process.env[name]]
    is: not set, or set to the empty string. *)
Lemma env_unset_own (name : string) :
  is_inherited name = false ->
  env_unset env name = true <-> env !! name = None \/ env !! name = Some "".
Proof. intros H. rewrite env_unset_spec, H. tauto. Qed.

Lemma length_zero_nil {A} (l : list A) :
  (Z.of_nat (length l) =? 0) = bool_decide (l = []).
Proof. destruct l; reflexivity. Qed.

Lemma length_pos_nil {A} (l : list A) :
  (0 <? Z.of_nat (length l)) = negb (bool_decide (l = [])).
Proof. destruct l; reflexivity. Qed.

(** The completion of [validateEnvironment] on an array, case by case. *)
Lemma validateEnvironment_outcome (requiredKeys : list string)
    (options : ValidateOptions) :
  let name := default "unknown-service" (serviceName options) in
  let miss := List.filter (env_unset env) requiredKeys in
  outcome (validateEnvironment env (ReqArray requiredKeys) options) =
    if default true (skipInProduction options) && node_env_is env "production"
    then Ok {| valid := true; missing := []; warnings := []; v_serviceName := None |}
    else if bool_decide (miss = [])
    then Ok {| valid := true; missing := []; warnings := [];
               v_serviceName := Some name |}
    else if default false (throwOnMissing options)
    then Throw (VErr (warning_line name miss))
    else Ok {| valid := false; missing := miss;
               warnings := [warning_line name miss];
               v_serviceName := Some name |}.
Proof.
  intros name miss. unfold validateEnvironment.
  destruct (default true (skipInProduction options) && node_env_is env "production");
    [reflexivity|].
  cbn [filter_missing]. fold miss. fold name.
  unfold bind at 1. cbn [ret].
  rewrite length_pos_nil, length_zero_nil.
  destruct (bool_decide_reflect (miss = [])) as [E|E].
  - rewrite E. reflexivity.
  - cbn [negb]. fold (warning_line name miss).
    destruct (default false (throwOnMissing options)); reflexivity.
Qed.

(** C3. A call of [validate] on a list of required keys that returns,
    returns the whole record: in the production short-circuit
    ([skipInProduction] true, runtime mode "production") the record is
    [{ valid: true, missing: [], warnings: [] }], whatever the keys and the
    other variables are; in every other case it is
    [{ valid: missing.length == 0, missing, warnings, serviceName }].  In
    both cases [valid] holds iff [missing] is empty. *)
Theorem C3_validate_full_record (requiredKeys : list string)
    (options : ValidateOptions) (r : Validation) :
  outcome (validateEnvironment env (ReqArray requiredKeys) options) = Ok r ->
  let name := default "unknown-service" (serviceName options) in
  let miss := List.filter (env_unset env) requiredKeys in
  let short_circuit :=
    default true (skipInProduction options) && node_env_is env "production" in
  (short_circuit = true ->
     r = {| valid := true; missing := []; warnings := [];
            v_serviceName := None |}) /\
  (short_circuit = false ->
     r = {| valid := bool_decide (miss = []);
            missing := miss;
            warnings := if bool_decide (miss = []) then []
                        else [warning_line name miss];
            v_serviceName := Some name |}) /\
  (valid r = true <-> missing r = []).
Proof.
  intros H name miss short_circuit.
  rewrite validateEnvironment_outcome in H.
  fold name miss short_circuit in H.
  destruct short_circuit.
  - injection H as <-. repeat split; intros; try done.
  - destruct (bool_decide_reflect (miss = [])) as [E|E].
    + injection H as <-. rewrite E. repeat split; intros; try done.
    + destruct (default false (throwOnMissing options)); [discriminate|].
      injection H as <-. repeat split; intros; try done.
Qed.

(** The short-circuit does not look at the keys at all: not even a
    [requiredVars] that is no array makes it fail. *)
Lemma validateEnvironment_short_circuit (req : required_arg)
    (options : ValidateOptions) :
  default true (skipInProduction options) && node_env_is env "production" = true ->
  validateEnvironment env req options =
    ret {| valid := true; missing := []; warnings := []; v_serviceName := None |}.
Proof. intros H. unfold validateEnvironment. by rewrite H. Qed.

(** [validate] returns unless it was asked to throw. *)
Lemma validateEnvironment_returns (requiredKeys : list string)
    (options : ValidateOptions) :
  default false (throwOnMissing options) = false ->
  exists r, outcome (validateEnvironment env (ReqArray requiredKeys) options) = Ok r.
Proof.
  intros H. rewrite validateEnvironment_outcome, H.
  repeat case_match; eauto.
Qed.

(** C4 (amended). Outside the production short-circuit, [missing] is the
    subsequence of [requiredKeys] whose variable is empty, or absent and not
    the name of a property [process.env] inherits from [Object.prototype]
    (such as [constructor] or [toString], which are never reported), in the
    input order, and every occurrence is kept: a name listed twice and
    missing is reported twice.  Hence [missing] is free of duplicates
    whenever [requiredKeys] is. *)
Theorem C4_missing_is_filter (requiredKeys : list string)
    (options : ValidateOptions) (r : Validation) :
  default true (skipInProduction options) && node_env_is env "production" = false ->
  outcome (validateEnvironment env (ReqArray requiredKeys) options) = Ok r ->
  sublist (missing r) requiredKeys /\
  (forall k, k ∈ missing r <->
             k ∈ requiredKeys /\
             (env !! k = Some "" \/
              (env !! k = None /\ k ∉ object_prototype_keys))) /\
  (forall k, k ∈ missing r ->
             count_occ string_dec (missing r) k = count_occ string_dec requiredKeys k) /\
  (NoDup requiredKeys -> NoDup (missing r)).
Proof.
  intros Hs H.
  rewrite validateEnvironment_outcome, Hs in H.
  assert (missing r = List.filter (env_unset env) requiredKeys) as ->.
  { destruct (bool_decide_reflect (List.filter (env_unset env) requiredKeys = []))
      as [E|E].
    - injection H as <-. by rewrite E.
    - destruct (default false (throwOnMissing options)); [done|].
      by injection H as <-. }
  clear H.
  assert (Hin : forall k, k ∈ List.filter (env_unset env) requiredKeys <->
            k ∈ requiredKeys /\
            (env !! k = Some "" \/
             (env !! k = None /\ k ∉ object_prototype_keys))).
  { intros k.
    rewrite !list_elem_of_In, filter_In, env_unset_spec, is_inherited_spec.
    rewrite list_elem_of_In. tauto. }
  split; [|split; [exact Hin|split]].
  - clear. induction requiredKeys as [|k l IH]; cbn; [constructor|].
    destruct (env_unset env k); by constructor.
  - intros k Hk. apply Hin in Hk as [_ Hk].
    rewrite <- is_inherited_spec in Hk. apply env_unset_spec in Hk.
    clear -Hk. induction requiredKeys as [|k' l IH]; cbn; [done|].
    destruct (string_dec k' k) as [->|Hne].
    + rewrite Hk. cbn. destruct (string_dec k k); [|done]. by rewrite IH.
    + destruct (env_unset env k'); cbn; [|done].
      destruct (string_dec k' k); [done|]. exact IH.
  - intros Hnd. apply NoDup_ListNoDup. apply List.NoDup_filter.
    by apply NoDup_ListNoDup.
Qed.

(** C9 (amended). [getVar] fails exactly when [required] is true and the
    variable is empty, or absent and not the name of a property that
    [process.env] inherits from [Object.prototype], whatever [defaultValue]
    is, and the error names the variable; otherwise it returns the
    variable's value when that is non-empty, the inherited property when the
    variable is absent and the name is inherited (also with [required]
    true), and [defaultValue] in the remaining case. *)
Theorem C9_getEnvVar_outcome (varName : string) (defaultValue : option string)
    (required : bool) :
  let falsy : Prop :=
    env !! varName = Some "" \/
    (env !! varName = None /\ varName ∉ object_prototype_keys) in
  let result := outcome (getEnvVar env varName defaultValue required) in
  ((exists e, result = Throw e) <-> required = true /\ falsy) /\
  (required = true -> falsy ->
     result = Throw (VErr ("Required environment variable " +:+ varName
                           +:+ " is not set"))) /\
  (required = false -> falsy -> result = Ok (ResultDefault defaultValue)) /\
  (forall v, env !! varName = Some v -> v <> "" -> result = Ok (ResultValue v)) /\
  (env !! varName = None -> varName ∈ object_prototype_keys ->
     result = Ok (ResultInherited varName)).
Proof.
  intros falsy result.
  assert (falsy <-> env_unset env varName = true) as Hf.
  { unfold falsy. rewrite env_unset_spec, is_inherited_spec. tauto. }
  assert (env_truthy (env_lookup env varName) = negb (env_unset env varName)) as Ht.
  { unfold env_unset. by rewrite negb_involutive. }
  assert (result =
    if env_unset env varName && required
    then Throw (VErr ("Required environment variable " +:+ varName
                      +:+ " is not set"))
    else Ok (if env_unset env varName then ResultDefault defaultValue
             else match env_lookup env varName with
                  | EnvValue v => ResultValue v
                  | _ => ResultInherited varName
                  end)) as Hr.
  { unfold result, getEnvVar. rewrite Ht.
    destruct (env_unset env varName), required; reflexivity. }
  rewrite Hr, Hf. clear Hr result Hf falsy Ht.
  split; [|split; [|split; [|split]]].
  - destruct (env_unset env varName), required; cbn; split;
      try (intros [? ?]; done); try (intros [? ?]; discriminate); eauto.
  - by intros -> ->.
  - by intros -> ->.
  - intros v Hv Hne.
    assert (env_unset env varName = false) as ->.
    { unfold env_unset, env_lookup. rewrite Hv. cbn. rewrite negb_involutive.
      by apply String.eqb_neq. }
    cbn. unfold env_lookup. by rewrite Hv.
  - intros Hv Hin.
    assert (is_inherited varName = true) as Hi.
    { destruct (is_inherited varName) eqn:E; [done|].
      by apply is_inherited_spec in E. }
    assert (env_unset env varName = false) as ->.
    { unfold env_unset, env_lookup. by rewrite Hv, Hi. }
    cbn. unfold env_lookup. by rewrite Hv, Hi.
Qed.

End EnvironmentProperties.

Section EnvironmentExamples.
Import Environment Samples.

Lemma C3_validate_full_record_witness :
  valid {| valid := false;
           missing := ["COGNITO_USER_POOL_ID"];
           warnings := ["auth: Missing environment variables: COGNITO_USER_POOL_ID"];
           v_serviceName := Some "auth" |} = true
  <-> ["COGNITO_USER_POOL_ID"] = @nil string.
Proof.
  exact (proj2 (proj2
    (C3_validate_full_record env_partial
       ["DYNAMODB_TABLE_NAME"; "COGNITO_USER_POOL_ID"]
       {| serviceName := Some "auth"; skipInProduction := None;
          throwOnMissing := None |}
       _ eq_refl))).
Defined.

(** The short-circuit on a production machine with nothing configured. *)
Example validate_production_short_circuit :
  validateEnvironment env_production (ReqArray ["DYNAMODB_TABLE_NAME"]) no_options
  = ret {| valid := true; missing := []; warnings := []; v_serviceName := None |}.
Proof. reflexivity. Qed.

(** With [throwOnMissing] the same call logs the line and throws it. *)
Example validate_throwOnMissing :
  validateEnvironment env_partial (ReqArray ["COGNITO_USER_POOL_ID"])
    {| serviceName := Some "auth"; skipInProduction := None;
       throwOnMissing := Some true |}
  = (["auth: Missing environment variables: COGNITO_USER_POOL_ID"],
     Throw (VErr "auth: Missing environment variables: COGNITO_USER_POOL_ID")).
Proof. reflexivity. Qed.

(** C4, as stated, fails: a name required twice and missing is listed
    twice. *)
Lemma C4_duplicates_kept :
  exists r,
    outcome (validateEnvironment ∅ (ReqArray ["A"; "B"; "A"]) no_options) = Ok r /\
    missing r = ["A"; "B"; "A"] /\
    ~ NoDup (missing r).
Proof.
  eexists. split; [reflexivity|]. split; [reflexivity|].
  cbn. intros H. apply NoDup_cons in H as [H _]. apply H. set_solver.
Qed.

(** Names that [process.env] inherits from [Object.prototype] are never
    missing. *)
Example validate_inherited_names :
  outcome (validateEnvironment ∅ (ReqArray ["toString"; "A"; "constructor"])
             no_options)
  = Ok {| valid := false; missing := ["A"];
          warnings := ["unknown-service: Missing environment variables: A"];
          v_serviceName := Some "unknown-service" |}.
Proof. reflexivity. Qed.

Lemma C4_missing_is_filter_witness :
  sublist ["COGNITO_USER_POOL_ID"] ["DYNAMODB_TABLE_NAME"; "COGNITO_USER_POOL_ID"].
Proof.
  exact (proj1
    (C4_missing_is_filter env_partial
       ["DYNAMODB_TABLE_NAME"; "COGNITO_USER_POOL_ID"]
       {| serviceName := Some "auth"; skipInProduction := None;
          throwOnMissing := None |}
       _ eq_refl eq_refl)).
Defined.

(** C9, as stated, fails: a required variable that is unset makes [getVar]
    throw although a default is supplied. *)
Lemma C9_required_ignores_default :
  outcome (getEnvVar ∅ "CUSTOM_TIMEOUT" (Some "30000") true)
    = Throw (VErr "Required environment variable CUSTOM_TIMEOUT is not set") /\
  outcome (getEnvVar ∅ "CUSTOM_TIMEOUT" (Some "30000") true)
    <> Ok (ResultDefault (Some "30000")).
Proof. split; [reflexivity | discriminate]. Qed.

(** A name that [process.env] inherits is never reported as not set: the
    inherited function is returned, also when the variable is required. *)
Example getEnvVar_inherited_name :
  getEnvVar ∅ "toString" (Some "fallback") true = ret (ResultInherited "toString").
Proof. reflexivity. Qed.

Lemma C9_getEnvVar_outcome_witness :
  outcome (getEnvVar env_partial "DYNAMODB_TABLE_NAME" (Some "fallback") true)
    = Ok (ResultValue "T") /\
  outcome (getEnvVar env_partial "CUSTOM_TIMEOUT" (Some "30000") false)
    = Ok (ResultDefault (Some "30000")) /\
  outcome (getEnvVar env_partial "constructor" (Some "30000") true)
    = Ok (ResultInherited "constructor").
Proof.
  pose proof (C9_getEnvVar_outcome env_partial "DYNAMODB_TABLE_NAME"
                (Some "fallback") true) as (_ & _ & _ & H1 & _).
  pose proof (C9_getEnvVar_outcome env_partial "CUSTOM_TIMEOUT"
                (Some "30000") false) as (_ & _ & H2 & _).
  pose proof (C9_getEnvVar_outcome env_partial "constructor"
                (Some "30000") true) as (_ & _ & _ & _ & H3).
  split; [apply H1; [reflexivity | discriminate]|].
  split.
  - apply H2; [reflexivity|]. right. split; [reflexivity|].
    unfold object_prototype_keys. rewrite !elem_of_cons, elem_of_nil.
    intros H. repeat (destruct H as [H|H]; [discriminate H|]). exact H.
  - apply H3; [reflexivity|].
    unfold object_prototype_keys. rewrite !elem_of_cons. by left.
Defined.

End EnvironmentExamples.

(* ===================================================================== *)
(** ** Properties of the computation monad and of objects                  *)
(* ===================================================================== *)

Section Computations.

Lemma outcome_bind {A B} (m : M A) (f : A -> M B) :
  outcome (bind m f) =
    match outcome m with
    | Ok a => outcome (f a)
    | Throw e => Throw e
    end.
Proof.
  destruct m as [out [a|e]]; cbn; [|reflexivity].
  by destruct (f a).
Qed.

Lemma outcome_try_catch {A} (body : M A) (handler : value -> M A) :
  outcome (try_catch body handler) =
    match outcome body with
    | Ok a => Ok a
    | Throw e => outcome (handler e)
    end.
Proof.
  destruct body as [out [a|e]]; cbn; [reflexivity|].
  by destruct (handler e).
Qed.

Lemma outcome_ret {A} (a : A) : outcome (ret a) = Ok a.
Proof. reflexivity. Qed.

Lemma lookup_set_prop_eq (k : string) (v : value) (fields : list (string * value)) :
  lookup_prop k (set_prop k v fields) = v.
Proof.
  induction fields as [|[k' v'] rest IH]; cbn.
  - by rewrite String.eqb_refl.
  - destruct (String.eqb_spec k k') as [->|Hne]; cbn.
    + by rewrite String.eqb_refl.
    + destruct (String.eqb_spec k k'); [done|exact IH].
Qed.

Lemma lookup_set_prop_ne (k k' : string) (v : value)
    (fields : list (string * value)) :
  k <> k' -> lookup_prop k' (set_prop k v fields) = lookup_prop k' fields.
Proof.
  intros Hne. induction fields as [|[k0 v0] rest IH]; cbn.
  - destruct (String.eqb_spec k' k); [congruence|done].
  - destruct (String.eqb_spec k k0) as [->|Hk]; cbn.
    + destruct (String.eqb_spec k' k0); [congruence|done].
    + destruct (String.eqb_spec k' k0); [done|exact IH].
Qed.

Lemma get_prop_throws_errors_only (v : value) (k : string) :
  throws_errors_only (get_prop v k).
Proof. intros e. destruct v; cbn; intros [= <-]; by eexists. Qed.

Lemma get_prop_message (m : string) :
  get_prop (VErr m) "message" = ret (VStr m).
Proof. reflexivity. Qed.

Lemma prefix_spec (needle hay : string) :
  String.prefix needle hay = true <-> exists post, hay = needle +:+ post.
Proof.
  revert hay. induction needle as [|a needle IH]; intros hay.
  - destruct hay; cbn; (split; [intros _; by eexists|done]).
  - destruct hay as [|b hay]; cbn.
    + split; [done|]. by intros [post [=]].
    + destruct (Ascii.ascii_dec a b) as [->|Hne].
      * rewrite IH. split; intros [post Hp]; exists post.
        -- cbn. by rewrite Hp.
        -- by injection Hp.
      * split; [done|]. intros [post [= ? ?]]. done.
Qed.

(** [includes] is substring containment. *)
Lemma includes_spec (needle hay : string) :
  includes needle hay = true <-> exists pre post, hay = pre +:+ needle +:+ post.
Proof.
  induction hay as [|b hay IH]; cbn [includes].
  - rewrite orb_false_r, prefix_spec. split.
    + intros [post Hp]. by exists "", post.
    + intros [pre [post Hp]]. destruct pre; [by exists post|done].
  - rewrite orb_true_iff, prefix_spec, IH. split.
    + intros [[post Hp]|[pre [post Hp]]].
      * by exists "", post.
      * exists (String b pre), post. cbn. by rewrite Hp.
    + intros [pre [post Hp]]. destruct pre as [|c pre].
      * left. by exists post.
      * right. injection Hp as -> ->. by exists pre, post.
Qed.

End Computations.

(* ===================================================================== *)
(** ** Properties of utils/health.js                                       *)
(* ===================================================================== *)

Section HealthProperties.
Import Environment Health.

Lemma sev_le_refl (a : overall) : sev_le a a.
Proof. unfold sev_le. lia. Qed.

Lemma sev_le_trans (a b c : overall) : sev_le a b -> sev_le b c -> sev_le a c.
Proof. unfold sev_le. lia. Qed.

Lemma sev_le_max_l (a b : overall) : sev_le a (sev_max a b).
Proof. destruct a, b; unfold sev_le; cbn; lia. Qed.

Lemma sev_max_healthy_l (a : overall) : sev_max healthy a = a.
Proof. by destruct a. Qed.

Lemma sev_max_assoc (a b c : overall) :
  sev_max a (sev_max b c) = sev_max (sev_max a b) c.
Proof. by destruct a, b, c. Qed.

Lemma worst_app (l1 l2 : list check_status) :
  worst (l1 ++ l2) = sev_max (worst l1) (worst l2).
Proof.
  unfold worst. rewrite !existsb_app.
  destruct (existsb is_error l1), (existsb is_error l2),
    (existsb is_warning l1), (existsb is_warning l2); reflexivity.
Qed.

Lemma worst_unhealthy (l : list check_status) :
  worst l = unhealthy <-> StatusError ∈ l.
Proof.
  unfold worst. destruct (existsb is_error l) eqn:E.
  - split; [intros _|done]. apply existsb_exists in E as (s & Hs & Hs').
    destruct s; try done. by apply list_elem_of_In.
  - assert (StatusError ∉ l) as Hn.
    { intros Hin. apply list_elem_of_In in Hin.
      assert (existsb is_error l = true) by (apply existsb_exists; eauto).
      congruence. }
    destruct (existsb is_warning l); split; done.
Qed.

Lemma worst_degraded (l : list check_status) :
  worst l = degraded <-> (StatusError ∉ l) /\ (StatusWarning ∈ l).
Proof.
  pose proof (worst_unhealthy l) as Hu. unfold worst in *.
  destruct (existsb is_error l) eqn:E.
  - split; [done|]. intros [Hn _]. destruct Hn. by apply Hu.
  - assert (StatusError ∉ l) as Hn.
    { intros Hin. destruct (existsb is_warning l); by apply Hu in Hin. }
    destruct (existsb is_warning l) eqn:W.
    + split; [intros _|done]. split; [done|].
      apply existsb_exists in W as (s & Hs & Hs').
      destruct s; try done. by apply list_elem_of_In.
    + split; [done|]. intros [_ Hin]. apply list_elem_of_In in Hin.
      assert (existsb is_warning l = true) by (apply existsb_exists; eauto).
      congruence.
Qed.

(** The environment block, by the completion of the validator call. *)
Lemma environmentCheck_outcome (validation : M Validation)
    (checks : list (string * value)) (st : overall) :
  outcome (environmentCheck validation (checks, st)) =
    match outcome validation with
    | Ok r =>
        Ok (set_prop "environment" (environment_record r) checks,
            if valid r then st else degraded)
    | Throw e =>
        match outcome (get_prop e "message") with
        | Ok message =>
            Ok (set_prop "environment" (error_record message) checks, unhealthy)
        | Throw e' => Throw e'
        end
    end.
Proof.
  unfold environmentCheck.
  rewrite outcome_try_catch, outcome_bind.
  destruct (outcome validation) as [r|e].
  - cbn. by destruct (valid r).
  - rewrite outcome_bind. by destruct (outcome (get_prop e "message")).
Qed.

(** One iteration of the client loop, by the shape of the entry. *)
Lemma clientCheck_outcome (name : string) (c : client)
    (checks : list (string * value)) (st : overall) :
  outcome (clientCheck (name, c) (checks, st)) =
    match c with
    | ClientAbsent => Ok (set_prop name uninitialized_record checks, sev_max st degraded)
    | ClientPlain => Ok (set_prop name initialized_record checks, st)
    | ClientReporting (Ok record) => Ok (set_prop name record checks, st)
    | ClientReporting (Throw e) =>
        match outcome (get_prop e "message") with
        | Ok message => Ok (set_prop name (error_record message) checks, unhealthy)
        | Throw e' => Throw e'
        end
    end.
Proof.
  unfold clientCheck. rewrite outcome_try_catch.
  destruct c as [| |[record|e]]; cbn -[get_prop]; try reflexivity.
  - by destruct st.
  - rewrite outcome_bind. by destruct (outcome (get_prop e "message")).
Qed.

Lemma environmentCheck_throws_errors_only (validation : M Validation)
    (s : check_state) :
  throws_errors_only (environmentCheck validation s).
Proof.
  destruct s as [checks st]. intros e. rewrite environmentCheck_outcome.
  destruct (outcome validation) as [r|e0]; [done|].
  destruct (outcome (get_prop e0 "message")) eqn:E; [done|].
  intros [= <-]. by eapply get_prop_throws_errors_only.
Qed.

Lemma clientCheck_throws_errors_only (entry : string * client) (s : check_state) :
  throws_errors_only (clientCheck entry s).
Proof.
  destruct s as [checks st], entry as [name c]. intros e.
  rewrite clientCheck_outcome.
  destruct c as [| |[record|e0]]; try done.
  destruct (outcome (get_prop e0 "message")) eqn:E; [done|].
  intros [= <-]. by eapply get_prop_throws_errors_only.
Qed.

Lemma clientChecks_throws_errors_only (entries : list (string * client))
    (s : check_state) :
  throws_errors_only (clientChecks entries s).
Proof.
  revert s. induction entries as [|entry rest IH]; intros s e; cbn [clientChecks].
  - done.
  - rewrite outcome_bind.
    destruct (outcome (clientCheck entry s)) as [s'|e0] eqn:E.
    + apply IH.
    + intros [= <-]. by eapply clientCheck_throws_errors_only.
Qed.

Lemma clientChecks_app (l1 l2 : list (string * client)) (s : check_state) :
  outcome (clientChecks (l1 ++ l2) s) =
    match outcome (clientChecks l1 s) with
    | Ok s1 => outcome (clientChecks l2 s1)
    | Throw e => Throw e
    end.
Proof.
  revert s. induction l1 as [|entry rest IH]; intros s; cbn [clientChecks app].
  - reflexivity.
  - rewrite !outcome_bind. destruct (outcome (clientCheck entry s)); [apply IH|done].
Qed.

(** The severity a client entry asks for. *)
Lemma clientCheck_status (name : string) (c : client)
    (checks checks' : list (string * value)) (st st' : overall) :
  outcome (clientCheck (name, c) (checks, st)) = Ok (checks', st') ->
  st' = sev_max st (worst (omap assigned_status [c])).
Proof.
  rewrite clientCheck_outcome.
  destruct c as [| |[record|e]]; cbn -[get_prop].
  - by intros [= _ <-].
  - intros [= _ <-]. by destruct st.
  - intros [= _ <-]. by destruct st.
  - destruct (outcome (get_prop e "message")); [|done].
    intros [= _ <-]. by destruct st.
Qed.

Lemma clientChecks_status (entries : list (string * client))
    (checks checks' : list (string * value)) (st st' : overall) :
  outcome (clientChecks entries (checks, st)) = Ok (checks', st') ->
  st' = sev_max st (worst (omap assigned_status entries.*2)).
Proof.
  revert checks st. induction entries as [|[name c] rest IH]; intros checks st.
  - cbn. intros [= _ <-]. by destruct st.
  - cbn [clientChecks]. rewrite outcome_bind.
    destruct (outcome (clientCheck (name, c) (checks, st))) as [[checks1 st1]|e] eqn:E;
      [|done].
    intros H. apply IH in H. apply clientCheck_status in E. subst st' st1.
    change (((name, c) :: rest).*2) with ([c] ++ rest.*2).
    by rewrite omap_app, worst_app, sev_max_assoc.
Qed.

Lemma environmentCheck_status (validation : M Validation)
    (checks checks' : list (string * value)) (st' : overall) :
  outcome (environmentCheck validation (checks, healthy)) = Ok (checks', st') ->
  st' = worst [environment_status (outcome validation)].
Proof.
  rewrite environmentCheck_outcome.
  destruct (outcome validation) as [r|e]; cbn -[get_prop].
  - intros [= _ <-]. by destruct (valid r).
  - destruct (outcome (get_prop e "message")); [|done]. by intros [= _ <-].
Qed.

Lemma runChecks_outcome (rt : Runtime) (name : string)
    (clients : option (list (string * client))) (options : HealthOptions) :
  outcome (runChecks rt name clients options) =
    match outcome (after_environment rt name options) with
    | Ok s =>
        if default true (checkClients options)
        then outcome (clientChecks (default [] clients) s)
        else Ok s
    | Throw e => Throw e
    end.
Proof.
  unfold runChecks. rewrite outcome_bind.
  destruct (outcome (after_environment rt name options)) as [s|e]; [|done].
  destruct (default true (checkClients options)); [|done].
  by destruct clients.
Qed.

(** The overall status after all checks is the worst of the statuses the
    call assigned. *)
Lemma runChecks_status (rt : Runtime) (name : string)
    (clients : option (list (string * client))) (options : HealthOptions)
    (checks : list (string * value)) (st : overall) :
  outcome (runChecks rt name clients options) = Ok (checks, st) ->
  st = worst (assigned_statuses rt name clients options).
Proof.
  rewrite runChecks_outcome. unfold after_environment, assigned_statuses.
  rewrite worst_app.
  destruct (default true (checkEnvironment options)).
  - destruct (outcome (environmentCheck _ _)) as [[checks0 st0]|e] eqn:E; [|done].
    apply environmentCheck_status in E. subst st0.
    destruct (default true (checkClients options)).
    + apply clientChecks_status.
    + intros [= _ <-]. by destruct (worst _).
  - cbn [outcome ret snd]. destruct (default true (checkClients options)).
    + intros H. apply clientChecks_status in H. by rewrite H.
    + by intros [= _ <-].
Qed.

Lemma runChecks_throws_errors_only (rt : Runtime) (name : string)
    (clients : option (list (string * client))) (options : HealthOptions) :
  throws_errors_only (runChecks rt name clients options).
Proof.
  intros e. rewrite runChecks_outcome. unfold after_environment.
  destruct (default true (checkEnvironment options)).
  - destruct (outcome (environmentCheck _ _)) as [s|e0] eqn:E.
    + destruct (default true (checkClients options)); [|done].
      apply clientChecks_throws_errors_only.
    + intros [= <-]. by eapply environmentCheck_throws_errors_only.
  - cbn [outcome ret snd]. destruct (default true (checkClients options)); [|done].
    apply clientChecks_throws_errors_only.
Qed.

Lemma performHealthCheck_outcome (rt : Runtime) (name : string)
    (clients : option (list (string * client))) (options : HealthOptions) :
  outcome (performHealthCheck rt name clients options) =
    match outcome (runChecks rt name clients options) with
    | Ok (checks, st) =>
        Ok (healthReport st name (getEnvironmentInfo (env rt) (now rt))
              (with_metrics rt options checks))
    | Throw e => Throw e
    end.
Proof.
  unfold performHealthCheck. rewrite outcome_bind.
  destruct (outcome (runChecks rt name clients options)) as [[checks st]|e]; done.
Qed.

Lemma status_field_healthReport (st : overall) (name : string)
    (info : EnvironmentInfo) (checks : list (string * value)) :
  status_field (healthReport st name info checks) = VStr (overall_str st).
Proof. reflexivity. Qed.

Lemma reported_status_healthReport (st : overall) (name : string)
    (info : EnvironmentInfo) (checks : list (string * value)) :
  reported_status (healthReport st name info checks) = Some st.
Proof. by destruct st. Qed.

Lemma reported_check_healthReport (st : overall) (name : string)
    (info : EnvironmentInfo) (checks : list (string * value)) (k : string) :
  reported_check (healthReport st name info checks) k = lookup_prop k checks.
Proof. reflexivity. Qed.

Lemma performHealthCheck_throws_errors_only (rt : Runtime) (name : string)
    (clients : option (list (string * client))) (options : HealthOptions) :
  throws_errors_only (performHealthCheck rt name clients options).
Proof.
  intros e. rewrite performHealthCheck_outcome.
  destruct (outcome (runChecks rt name clients options)) as [[checks st]|e0] eqn:E;
    [done|].
  intros [= <-]. by eapply runChecks_throws_errors_only.
Qed.

(** The status a returned report carries is the worst assigned one. *)
Lemma performHealthCheck_status (rt : Runtime) (service : string)
    (clients : option (list (string * client))) (options : HealthOptions)
    (hd : value) :
  outcome (performHealthCheck rt service clients options) = Ok hd ->
  reported_status hd = Some (worst (assigned_statuses rt service clients options)).
Proof.
  intros H. rewrite performHealthCheck_outcome in H.
  destruct (outcome (runChecks rt service clients options))
    as [[checks st]|e] eqn:E; [|done].
  injection H as <-. rewrite reported_status_healthReport.
  f_equal. by eapply runChecks_status.
Qed.

(** The record a client entry leaves under its name. *)
Lemma clientCheck_record (name : string) (c : client)
    (checks checks' : list (string * value)) (st st' : overall) :
  outcome (clientCheck (name, c) (checks, st)) = Ok (checks', st') ->
  (forall s, assigned_status c = Some s ->
     status_field (lookup_prop name checks') = VStr (check_status_str s)) /\
  (forall record, c = ClientReporting (Ok record) ->
     lookup_prop name checks' = record) /\
  (forall k, k <> name -> lookup_prop k checks' = lookup_prop k checks).
Proof.
  rewrite clientCheck_outcome.
  destruct c as [| |[record|e]]; cbn -[get_prop lookup_prop set_prop].
  1-3: intros [= <- _]; rewrite lookup_set_prop_eq;
       (split; [by intros s [= <-]|]);
       (split; [by intros r [= <-] |]);
       intros k Hk; by apply lookup_set_prop_ne.
  destruct (outcome (get_prop e "message")); [|done].
  intros [= <- _]. rewrite lookup_set_prop_eq.
  split; [by intros s [= <-]|]. split; [done|].
  intros k Hk. by apply lookup_set_prop_ne.
Qed.

Lemma clientChecks_untouched (entries : list (string * client))
    (checks checks' : list (string * value)) (st st' : overall) (k : string) :
  k ∉ entries.*1 ->
  outcome (clientChecks entries (checks, st)) = Ok (checks', st') ->
  lookup_prop k checks' = lookup_prop k checks.
Proof.
  revert checks st. induction entries as [|[name c] rest IH]; intros checks st Hk.
  - cbn. by intros [= <- _].
  - cbn [clientChecks]. rewrite outcome_bind.
    destruct (outcome (clientCheck (name, c) (checks, st))) as [[checks1 st1]|e] eqn:E;
      [|done].
    intros H. apply IH in H; [|intros Hin; apply Hk; cbn; by right].
    apply clientCheck_record in E as (_ & _ & E). rewrite H. apply E.
    intros ->. apply Hk. cbn. left.
Qed.

(** In the returned report, every client entry is found under its own name
    with the status the call assigned, and a record a client reported itself
    is found as it was returned. *)
Lemma assigned_status_is_reported (rt : Runtime) (service : string)
    (entries : list (string * client)) (options : HealthOptions)
    (hd : value) (name : string) (c : client) :
  outcome (performHealthCheck rt service (Some entries) options) = Ok hd ->
  default true (checkClients options) = true ->
  NoDup entries.*1 ->
  (name, c) ∈ entries ->
  (default false (includeMetrics options) = true -> name <> "performance") ->
  (forall s, assigned_status c = Some s ->
     status_field (reported_check hd name) = VStr (check_status_str s)) /\
  (forall record, c = ClientReporting (Ok record) ->
     reported_check hd name = record).
Proof.
  intros H Hc Hnd Hin Hperf.
  rewrite performHealthCheck_outcome, runChecks_outcome, Hc in H.
  destruct (outcome (after_environment rt service options)) as [[checks0 st0]|e0];
    [|done].
  cbv beta iota delta [default from_option id] in H.
  destruct (outcome (clientChecks entries (checks0, st0)))
    as [[checks st]|e] eqn:E; [|done].
  injection H as <-. rewrite reported_check_healthReport.
  assert (lookup_prop name (with_metrics rt options checks) = lookup_prop name checks)
    as ->.
  { unfold with_metrics. destruct (default false (includeMetrics options)); [|done].
    apply lookup_set_prop_ne. intros Heq. by apply Hperf. }
  clear Hc Hperf. revert checks0 st0 E.
  induction entries as [|[name' c'] rest IH]; intros checks0 st0 E; [set_solver|].
  cbn [clientChecks] in E. rewrite outcome_bind in E.
  destruct (outcome (clientCheck (name', c') (checks0, st0)))
    as [[checks1 st1]|e] eqn:E1; [|done].
  cbn [fmap list_fmap fst] in Hnd.
  apply NoDup_cons in Hnd as [Hfresh Hnd].
  apply elem_of_cons in Hin as [[= <- <-]|Hin].
  - apply clientCheck_record in E1 as (Hs & Hr & _).
    rewrite (clientChecks_untouched _ _ _ _ _ _ Hfresh E). by split.
  - by eapply IH.
Qed.

(** C1 (amended). Within one call the overall status is never upgraded: the
    status reached after any prefix of the client entries is at most as
    severe as the returned one.  Counting the statuses the call assigns
    itself (the environment sub-check, a client without a health function,
    an absent client, a client whose health call throws), the returned
    status is their worst: [unhealthy] as soon as one of them is [error];
    [degraded] when none is [error] and one is [warning]; [healthy] when all
    are [ok].  A record a client reports itself does not count: it is
    stored as it is, and every client entry is found in the returned report
    under its own name, with the status the call assigned or as the record
    the client returned (the names of the entries being distinct, none of
    them [__proto__], whose assignment sets the prototype of [checks], nor,
    when metrics are included, [performance], which the metrics
    overwrite). *)
Theorem C1_overall_is_worst_assigned (rt : Runtime) (service : string)
    (clients : option (list (string * client))) (options : HealthOptions)
    (hd : value) :
  outcome (performHealthCheck rt service clients options) = Ok hd ->
  let assigned := assigned_statuses rt service clients options in
  reported_status hd = Some (worst assigned) /\
  (StatusError ∈ assigned -> reported_status hd = Some unhealthy) /\
  (StatusError ∉ assigned -> StatusWarning ∈ assigned ->
     reported_status hd = Some degraded) /\
  (forall pre post, clients = Some (pre ++ post) ->
     exists checks st,
       outcome (runChecks rt service (Some pre) options) = Ok (checks, st) /\
       sev_le st (worst assigned)) /\
  (forall entries name c,
     clients = Some entries ->
     default true (checkClients options) = true ->
     NoDup entries.*1 ->
     "__proto__" ∉ entries.*1 ->
     (default false (includeMetrics options) = true ->
        "performance" ∉ entries.*1) ->
     (name, c) ∈ entries ->
     (forall s, assigned_status c = Some s ->
        status_field (reported_check hd name) = VStr (check_status_str s)) /\
     (forall record, c = ClientReporting (Ok record) ->
        reported_check hd name = record)).
Proof.
  intros H assigned.
  assert (forall entries name c,
     clients = Some entries ->
     default true (checkClients options) = true ->
     NoDup entries.*1 ->
     "__proto__" ∉ entries.*1 ->
     (default false (includeMetrics options) = true ->
        "performance" ∉ entries.*1) ->
     (name, c) ∈ entries ->
     (forall s, assigned_status c = Some s ->
        status_field (reported_check hd name) = VStr (check_status_str s)) /\
     (forall record, c = ClientReporting (Ok record) ->
        reported_check hd name = record)) as Hrecords.
  { intros entries name c -> Hc Hnd _ Hperf Hin.
    apply (assigned_status_is_reported rt service entries options hd name c);
      try done.
    intros Hm -> . apply (Hperf Hm). apply list_elem_of_fmap.
    by exists ("performance", c). }
  rewrite performHealthCheck_outcome in H.
  destruct (outcome (runChecks rt service clients options))
    as [[checks st]|e] eqn:E; [|done].
  injection H as <-. rewrite reported_status_healthReport.
  pose proof (runChecks_status _ _ _ _ _ _ E) as Hst. fold assigned in Hst.
  subst st. split; [done|]. split; [|split; [|split; [|exact Hrecords]]].
  - intros Herr. f_equal. by apply worst_unhealthy.
  - intros Hn Hw. f_equal. by apply worst_degraded.
  - clear Hrecords. intros pre post ->. rewrite runChecks_outcome in E |- *.
    destruct (outcome (after_environment rt service options)) as [[checks0 st0]|e0];
      [|done].
    destruct (default true (checkClients options)).
    + cbv beta iota delta [default from_option id] in E |- *.
      rewrite clientChecks_app in E.
      destruct (outcome (clientChecks pre (checks0, st0))) as [[checks1 st1]|e1];
        [|done].
      exists checks1, st1. split; [done|].
      apply clientChecks_status in E. rewrite E. apply sev_le_max_l.
    + injection E as -> ->. exists checks, (worst assigned).
      split; [done|apply sev_le_refl].
Qed.

(** The validator call of the environment block never takes the production
    short-circuit: it returns the record for the service's keys, or throws
    the [TypeError] of a catalog lookup that found no array. *)
Lemma health_validation_outcome (rt : Runtime) (service : string) :
  outcome (health_validation rt service) =
    match required_for service with
    | ReqArray keys =>
        let miss := List.filter (env_unset (env rt)) keys in
        Ok {| valid := bool_decide (miss = []);
              missing := miss;
              warnings := if bool_decide (miss = []) then []
                          else [warning_line service miss];
              v_serviceName := Some service |}
    | ReqNotArray => Throw (VErr "requiredVars.filter is not a function")
    end.
Proof.
  unfold health_validation, validateServiceEnvironment.
  destruct (required_for service) as [keys|].
  - rewrite validateEnvironment_outcome. cbn.
    by destruct (bool_decide_reflect (List.filter (env_unset (env rt)) keys = [])) as [->|].
  - reflexivity.
Qed.

Lemma after_environment_returns (rt : Runtime) (service : string)
    (options : HealthOptions) :
  exists checks,
    outcome (after_environment rt service options) =
      Ok (checks,
          if default true (checkEnvironment options)
          then worst [environment_status (outcome (health_validation rt service))]
          else healthy).
Proof.
  unfold after_environment. destruct (default true (checkEnvironment options)).
  - rewrite environmentCheck_outcome, health_validation_outcome.
    destruct (required_for service) as [keys|]; cbn -[set_prop].
    + destruct (bool_decide _); by eexists.
    + by eexists.
  - by eexists.
Qed.

Lemma clientChecks_returns (entries : list (string * client)) (s : check_state) :
  (forall c, c ∈ entries.*2 -> ~ throws_nullish c) ->
  exists s', outcome (clientChecks entries s) = Ok s'.
Proof.
  revert s. induction entries as [|[name c] rest IH]; intros [checks st] Hc.
  - by eexists.
  - cbn [clientChecks]. rewrite outcome_bind, clientCheck_outcome.
    assert (forall c', c' ∈ rest.*2 -> ~ throws_nullish c') as Hrest.
    { intros c' Hin. apply Hc. cbn. by right. }
    assert (~ throws_nullish c) as Hhead.
    { apply Hc. cbn. by left. }
    destruct c as [| |[record|e]]; try by apply IH.
    destruct e; try by apply IH.
    + destruct Hhead. by right.
    + destruct Hhead. by left.
Qed.

(** [performHealthCheck] returns a report unless a client throws [null] or
    [undefined]. *)
Lemma performHealthCheck_returns (rt : Runtime) (service : string)
    (clients : option (list (string * client))) (options : HealthOptions) :
  (forall c, c ∈ (default [] clients).*2 -> ~ throws_nullish c) ->
  exists hd, outcome (performHealthCheck rt service clients options) = Ok hd.
Proof.
  intros Hc. rewrite performHealthCheck_outcome, runChecks_outcome.
  destruct (after_environment_returns rt service options) as [checks0 ->].
  destruct (default true (checkClients options)); [|by eexists].
  destruct (clientChecks_returns _ (checks0,
    if default true (checkEnvironment options)
    then worst [environment_status (outcome (health_validation rt service))]
    else healthy) Hc) as [[checks st] ->].
  by eexists.
Qed.

(** The variables the catalog requires are names [process.env] does not
    inherit. *)
Lemma required_names_own (service : string) (keys : list string) (k : string) :
  required_for service = ReqArray keys -> k ∈ keys -> is_inherited k = false.
Proof.
  unfold required_for.
  destruct (assoc service SERVICE_ENV_VARS) as [names|] eqn:E.
  - intros [= <-] Hk. cbn in E.
    repeat (destruct (String.eqb service _);
            [injection E as <-;
             repeat (apply elem_of_cons in Hk as [->|Hk]; [reflexivity|]);
             by apply elem_of_nil in Hk|]).
    done.
  - destruct (existsb _ _); [done|]. intros [= <-] Hk. by apply elem_of_nil in Hk.
Qed.

(** The record of the environment sub-check is the one found in the returned
    report, unless a client entry is itself named "environment". *)
Lemma environment_record_survives (rt : Runtime) (service : string)
    (clients : option (list (string * client))) (options : HealthOptions)
    (hd : value) :
  outcome (performHealthCheck rt service clients options) = Ok hd ->
  "environment" ∉ (default [] clients).*1 ->
  exists checks st,
    outcome (after_environment rt service options) = Ok (checks, st) /\
    reported_check hd "environment" = lookup_prop "environment" checks.
Proof.
  intros H Hname. rewrite performHealthCheck_outcome, runChecks_outcome in H.
  destruct (outcome (after_environment rt service options)) as [[checks0 st0]|e0];
    [|done].
  exists checks0, st0. split; [done|].
  assert (forall checks, lookup_prop "environment" (with_metrics rt options checks)
                         = lookup_prop "environment" checks) as Hmetrics.
  { intros checks. unfold with_metrics.
    destruct (default false (includeMetrics options)); [|done].
    by apply lookup_set_prop_ne. }
  destruct (default true (checkClients options)).
  - destruct (outcome (clientChecks _ _)) as [[checks st]|e] eqn:E; [|done].
    injection H as <-. rewrite reported_check_healthReport, Hmetrics.
    by eapply clientChecks_untouched.
  - injection H as <-. by rewrite reported_check_healthReport, Hmetrics.
Qed.

(** C5 (amended). The environment sub-check calls the validator with
    [skipInProduction] false, so in every runtime mode, "production"
    included, a required variable that is absent or empty makes the block
    write status ['warning'] and the returned overall status is [degraded] or
    [unhealthy], and [degraded] unless a client check throws: an invalid
    environment alone never gives [unhealthy].  A validator that throws
    makes the block write status ['error'] and the returned overall status
    is [unhealthy].  The status the block wrote is the returned
    [checks.environment.status] provided no client entry is itself named
    "environment". *)
Theorem C5_environment_subcheck (rt : Runtime) (service : string)
    (clients : option (list (string * client))) (options : HealthOptions)
    (hd : value) :
  default true (checkEnvironment options) = true ->
  outcome (performHealthCheck rt service clients options) = Ok hd ->
  (forall keys k,
     required_for service = ReqArray keys ->
     k ∈ keys -> env rt !! k = None \/ env rt !! k = Some "" ->
     (exists checks,
        outcome (after_environment rt service options) = Ok (checks, degraded) /\
        status_field (lookup_prop "environment" checks) = VStr "warning") /\
     ("environment" ∉ (default [] clients).*1 ->
        status_field (reported_check hd "environment") = VStr "warning") /\
     (reported_status hd = Some degraded \/ reported_status hd = Some unhealthy) /\
     (reported_status hd = Some unhealthy ->
        default true (checkClients options) = true /\
        exists e, ClientReporting (Throw e) ∈ (default [] clients).*2)) /\
  (forall e,
     outcome (health_validation rt service) = Throw e ->
     (exists checks,
        outcome (after_environment rt service options) = Ok (checks, unhealthy) /\
        status_field (lookup_prop "environment" checks) = VStr "error") /\
     ("environment" ∉ (default [] clients).*1 ->
        status_field (reported_check hd "environment") = VStr "error") /\
     reported_status hd = Some unhealthy).
Proof.
  intros Henv Hhd.
  assert (forall checks st s,
    outcome (after_environment rt service options) = Ok (checks, st) ->
    status_field (lookup_prop "environment" checks) = s ->
    "environment" ∉ (default [] clients).*1 ->
    status_field (reported_check hd "environment") = s) as Hreturned.
  { intros checks st s Hblock Hs Hname.
    destruct (environment_record_survives _ _ _ _ _ Hhd Hname)
      as (checks' & st' & Hblock' & ->).
    rewrite Hblock in Hblock'. by injection Hblock' as <- _. }
  split.
  - intros keys k Hkeys Hk Hunset.
    apply (env_unset_own (env rt) k (required_names_own _ _ _ Hkeys Hk)) in Hunset.
    assert (List.filter (env_unset (env rt)) keys <> []) as Hmiss.
    { intros Hnil. assert (k ∈ List.filter (env_unset (env rt)) keys) as Hin.
      { apply list_elem_of_In, filter_In. split; [by apply list_elem_of_In|done]. }
      rewrite Hnil in Hin. by apply elem_of_nil in Hin. }
    assert (environment_status (outcome (health_validation rt service))
            = StatusWarning) as Hstatus.
    { rewrite health_validation_outcome, Hkeys. cbn.
      by rewrite bool_decide_eq_false_2. }
    assert (exists checks,
        outcome (after_environment rt service options) = Ok (checks, degraded) /\
        status_field (lookup_prop "environment" checks) = VStr "warning")
      as (checks & Hblock & Hs).
    { unfold after_environment. rewrite Henv, environmentCheck_outcome.
      rewrite health_validation_outcome, Hkeys. cbn -[set_prop lookup_prop].
      rewrite bool_decide_eq_false_2 by done.
      eexists. split; [reflexivity|]. by rewrite lookup_set_prop_eq. }
    split; [by exists checks|]. split; [by apply (Hreturned checks degraded)|].
    pose proof (performHealthCheck_status _ _ _ _ _ Hhd) as Hw.
    unfold assigned_statuses in Hw. rewrite Henv, Hstatus in Hw.
    rewrite Hw. cbn [app]. set (rest := if default true (checkClients options)
      then omap assigned_status (default [] clients).*2 else []) in *.
    change (StatusWarning :: rest) with ([StatusWarning] ++ rest).
    rewrite worst_app. destruct (worst rest) eqn:Hrest; cbn; split; auto; try done.
    intros _. apply worst_unhealthy in Hrest. unfold rest in Hrest.
    destruct (default true (checkClients options)); [|by apply elem_of_nil in Hrest].
    split; [done|].
    apply list_elem_of_omap in Hrest as (c & Hc & Hs').
    destruct c as [| |[record|e]]; try done. by exists e.
  - intros e He.
    assert (environment_status (outcome (health_validation rt service))
            = StatusError) as Hstatus by by rewrite He.
    pose proof (health_validation_outcome rt service) as Ho. rewrite He in Ho.
    destruct (required_for service) as [keys|]; [done|]. injection Ho as ->.
    assert (exists checks,
        outcome (after_environment rt service options) = Ok (checks, unhealthy) /\
        status_field (lookup_prop "environment" checks) = VStr "error")
      as (checks & Hblock & Hs).
    { unfold after_environment. rewrite Henv, environmentCheck_outcome, He.
      cbn -[set_prop lookup_prop]. eexists. split; [reflexivity|].
      by rewrite lookup_set_prop_eq. }
    split; [by exists checks|]. split; [by apply (Hreturned checks unhealthy)|].
    rewrite (performHealthCheck_status _ _ _ _ _ Hhd). f_equal.
    apply worst_unhealthy. unfold assigned_statuses.
    rewrite Henv, Hstatus. set_solver.
Qed.

(** The envelope built for an object. *)
Lemma createLambdaHealthResponse_object (rt : Runtime)
    (fields : list (string * value)) (code : option Z) :
  createLambdaHealthResponse rt (VObj fields) code =
    ret {| statusCode := default 200 code;
           headers := fixed_headers;
           body :=
             VObj [ ("data", VObj fields);
                    ("meta", VObj
                       [ ("service",
                            js_or (lookup_prop "service" fields) (VStr "unknown-service"));
                         ("version",
                            js_or (lookup_prop "version" fields) (VStr "1.0.0"));
                         ("apiVersion", VStr "v1");
                         ("timestamp", VStr (now rt));
                         ("environment",
                            VStr (env_or (env rt) "NODE_ENV" "unknown")) ]) ] |}.
Proof. reflexivity. Qed.

(** C10 (amended). For every [healthData] object and status code the
    envelope builder returns; [statusCode] is the given code, 200 when none
    is given; the headers are the fixed seven, whatever the payload;
    [meta.apiVersion] is "v1"; [meta.service] is [healthData.service] when
    that is truthy (for a string: non-empty) and "unknown-service" otherwise,
    also when the key is present with an empty or null value;
    [meta.version] likewise with "1.0.0". *)
Theorem C10_envelope_defaults (rt : Runtime) (fields : list (string * value))
    (code : option Z) :
  exists response,
    createLambdaHealthResponse rt (VObj fields) code = ret response /\
    statusCode response = default 200 code /\
    headers response = fixed_headers /\
    body_data response = VObj fields /\
    body_meta response "apiVersion" = VStr "v1" /\
    body_meta response "service" =
      (if truthy (lookup_prop "service" fields) then lookup_prop "service" fields
       else VStr "unknown-service") /\
    body_meta response "version" =
      (if truthy (lookup_prop "version" fields) then lookup_prop "version" fields
       else VStr "1.0.0").
Proof.
  eexists. split; [apply createLambdaHealthResponse_object|].
  repeat split.
Qed.

(** The guard on an event whose [path] is falsy or a string. *)
Lemma not_health_path_string (path : value)
    (q : option (gmap string string)) :
  (truthy path = false -> not_health_path (EventObject path q) = ret true) /\
  (forall p, path = VStr p ->
     not_health_path (EventObject path q) = ret (negb (includes "/health" p))).
Proof.
  split.
  - intros H. unfold not_health_path. by rewrite H.
  - intros p ->. unfold not_health_path. destruct p as [|a p]; [done|].
    reflexivity.
Qed.

(** The guard throws exactly on a [null] or [undefined] event and on a
    truthy [path] that is neither a string nor an array. *)
Lemma not_health_path_throws (event : Event) :
  (exists e, outcome (not_health_path event) = Throw e) <->
  event = EventNull \/ event = EventUndefined \/
  exists path query,
    event = EventObject path query /\ truthy path = true /\
    (forall p, path <> VStr p) /\ (forall items, path <> VArr items).
Proof.
  destruct event as [| |path query].
  - split; [auto|]. intros _. by eexists.
  - split; [auto|]. intros _. by eexists.
  - unfold not_health_path. split.
    + intros [e He]. right. right. exists path, query. split; [done|].
      destruct (truthy path) eqn:Ht; [|done]. split; [done|].
      destruct path; try done; split; intros ? [=].
    + intros [[=]|[[=]|(path' & query' & [= <- <-] & Ht & Hs & Ha)]].
      rewrite Ht. destruct path; try (by eexists).
      * by destruct (Hs s).
      * by destruct (Ha items).
Qed.

(** The completion of the handler, case by case. *)
Lemma healthCheckMiddleware_outcome (rt : Runtime) (service : string)
    (clients : option (list (string * client))) (event : Event) :
  outcome (healthCheckMiddleware rt service clients event) =
    match outcome (not_health_path event) with
    | Throw e => Throw e
    | Ok true => Ok None
    | Ok false =>
      match outcome (performHealthCheck rt service clients (middleware_options event)) with
      | Ok hd =>
          match outcome (get_prop hd "status") with
          | Ok status =>
              match outcome (createLambdaHealthResponse rt hd
                               (Some (status_code_for status))) with
              | Ok response => Ok (Some response)
              | Throw e => outcome (middleware_catch rt service e)
              end
          | Throw e => outcome (middleware_catch rt service e)
          end
      | Throw e => outcome (middleware_catch rt service e)
      end
    end.
Proof.
  unfold healthCheckMiddleware. rewrite outcome_bind.
  destruct (outcome (not_health_path event)) as [[|]|]; [done| |done].
  rewrite outcome_try_catch, outcome_bind. fold (middleware_options event).
  destruct (outcome (performHealthCheck _ _ _ _)) as [hd|e]; [|done].
  rewrite outcome_bind.
  destruct (outcome (get_prop hd "status")) as [status|e]; [|done].
  rewrite outcome_bind. fold (status_code_for status).
  by destruct (outcome (createLambdaHealthResponse _ _ _)).
Qed.

Lemma middleware_catch_error (rt : Runtime) (service message : string) :
  exists response,
    outcome (middleware_catch rt service (VErr message)) = Ok (Some response) /\
    statusCode response = 503 /\
    status_field (body_data response) = VStr "unhealthy".
Proof. eexists. split; [reflexivity|]. by split. Qed.

(** C2 (amended). On an event that is an object whose [path] is absent,
    falsy or a string, the handler that [healthCheckMiddleware] returns
    never raises.  It returns [null] when the path is absent or falsy, or a
    string that does not contain "/health".  On a path that contains
    "/health" it returns an envelope: when the health check returns a
    report, the envelope carries it with status code 200 for [healthy] and
    [degraded] and 503 for [unhealthy]; when the health check throws, the
    envelope has status code 503 and [data.status] "unhealthy".  A client
    handle that throws therefore always gives a 503 envelope whose
    [data.status] is "unhealthy".  The health records are plain data, which
    [JSON.stringify] serialises. *)
Theorem C2_middleware_on_requests (rt : Runtime) (service : string)
    (clients : option (list (string * client))) (path : value)
    (query : option (gmap string string)) :
  let event := EventObject path query in
  let result := outcome (healthCheckMiddleware rt service clients event) in
  let check :=
    outcome (performHealthCheck rt service clients (middleware_options event)) in
  (truthy path = false -> result = Ok None) /\
  (forall p, path = VStr p -> includes "/health" p = false -> result = Ok None) /\
  (forall p, path = VStr p -> includes "/health" p = true ->
     exists response,
       result = Ok (Some response) /\
       (forall hd, check = Ok hd ->
          body_data response = hd /\
          (reported_status hd = Some healthy -> statusCode response = 200) /\
          (reported_status hd = Some degraded -> statusCode response = 200) /\
          (reported_status hd = Some unhealthy -> statusCode response = 503)) /\
       (forall e, check = Throw e ->
          statusCode response = 503 /\
          status_field (body_data response) = VStr "unhealthy") /\
       (forall e, ClientReporting (Throw e) ∈ (default [] clients).*2 ->
          statusCode response = 503 /\
          status_field (body_data response) = VStr "unhealthy")).
Proof.
  intros event result check. unfold result.
  rewrite healthCheckMiddleware_outcome.
  destruct (not_health_path_string path query) as [Hfalsy Hstring].
  fold event in Hfalsy, Hstring.
  split; [|split].
  - intros H. by rewrite (Hfalsy H).
  - intros p Hp Hinc. by rewrite (Hstring p Hp), Hinc.
  - intros p Hp Hinc. rewrite (Hstring p Hp), Hinc. cbn [outcome ret negb snd].
    fold check. destruct check as [hd|e] eqn:Hcheck; unfold check in Hcheck.
    + pose proof (performHealthCheck_status _ _ _ _ _ Hcheck) as Hstatus.
      rewrite performHealthCheck_outcome in Hcheck.
      destruct (outcome (runChecks _ _ _ _)) as [[checks st]|?] eqn:Hrun; [|done].
      injection Hcheck as <-.
      rewrite reported_status_healthReport in Hstatus. injection Hstatus as Hst.
      eexists. split; [reflexivity|]. split; [|split].
      * intros hd [= <-]. rewrite reported_status_healthReport.
        split; [reflexivity|].
        repeat split; intros [= ->]; reflexivity.
      * done.
      * intros e He. apply (runChecks_status _ _ _ _ _ _) in Hrun.
        assert (st = unhealthy) as ->.
        { rewrite Hrun. apply worst_unhealthy. unfold assigned_statuses, middleware_options.
          cbn [checkClients checkEnvironment default from_option id].
          apply elem_of_app. right. apply list_elem_of_omap.
          by exists (ClientReporting (Throw e)). }
        by split.
    + destruct (performHealthCheck_throws_errors_only _ _ _ _ _ Hcheck) as [m ->].
      destruct (middleware_catch_error rt service m) as (response & -> & Hcode & Hdata).
      exists response. split; [done|]. split; [done|]. by split.
Qed.

End HealthProperties.

Section HealthExamples.
Import Environment Health Samples.

(** The end-to-end case: everything configured, two plain handles. *)
Example performHealthCheck_healthy :
  exists hd,
    outcome (performHealthCheck (runtime_of env_complete) "auth-service"
               (Some [ ("cognito", ClientPlain); ("dynamo", ClientPlain) ])
               default_options) = Ok hd /\
    reported_status hd = Some healthy /\
    status_field (reported_check hd "environment") = VStr "ok".
Proof. eexists. repeat split. Qed.

(** C1, as stated, fails: a client that reports its own record with status
    'error' leaves the overall status [healthy], and so does one that
    reports 'warning' next to sub-checks that are all 'ok'. *)
Lemma C1_self_reported_status_ignored :
  (exists hd,
     outcome (performHealthCheck (runtime_of env_complete) "auth-service"
                (clients_self_reported "error") default_options) = Ok hd /\
     status_field (reported_check hd "environment") = VStr "ok" /\
     status_field (reported_check hd "cognito") = VStr "ok" /\
     status_field (reported_check hd "dynamo") = VStr "error" /\
     reported_status hd = Some healthy /\
     reported_status hd <> Some unhealthy) /\
  (exists hd,
     outcome (performHealthCheck (runtime_of env_complete) "auth-service"
                (clients_self_reported "warning") default_options) = Ok hd /\
     status_field (reported_check hd "environment") = VStr "ok" /\
     status_field (reported_check hd "cognito") = VStr "ok" /\
     status_field (reported_check hd "dynamo") = VStr "warning" /\
     reported_status hd = Some healthy /\
     reported_status hd <> Some degraded).
Proof. split; eexists; repeat split; discriminate. Qed.

Lemma C1_overall_is_worst_assigned_witness :
  reported_status
    (healthReport degraded "auth-service"
       (getEnvironmentInfo env_complete "2024-01-27T00:00:00.000Z")
       [ ("environment",
            environment_record
              {| valid := true; missing := []; warnings := [];
                 v_serviceName := Some "auth-service" |});
         ("cognito", initialized_record);
         ("dynamo", uninitialized_record) ])
  = Some (worst (assigned_statuses (runtime_of env_complete) "auth-service"
                   clients_absent default_options)).
Proof.
  exact (proj1
    (C1_overall_is_worst_assigned (runtime_of env_complete) "auth-service"
       clients_absent default_options _ eq_refl)).
Defined.

(** A handle whose health call throws an [Error] is caught inside the
    check; one that throws [null] makes the check itself throw. *)
Example performHealthCheck_client_throws :
  (exists hd,
     outcome (performHealthCheck (runtime_of env_complete) "auth-service"
                (clients_throwing (VErr "timeout")) default_options) = Ok hd /\
     reported_check hd "cognito" = error_record (VStr "timeout") /\
     reported_status hd = Some unhealthy) /\
  outcome (performHealthCheck (runtime_of env_complete) "auth-service"
             (clients_throwing VNull) default_options)
    = Throw (VErr "Cannot read properties of null (reading 'message')").
Proof. split; [eexists; repeat split | reflexivity]. Qed.

(** The middleware turns both into a 503 envelope. *)
Example healthCheckMiddleware_client_throws_null :
  exists response,
    outcome (healthCheckMiddleware (runtime_of env_complete) "auth-service"
               (clients_throwing VNull) health_event) = Ok (Some response) /\
    statusCode response = 503 /\
    status_field (body_data response) = VStr "unhealthy".
Proof. eexists. repeat split. Qed.

Example healthCheckMiddleware_other_path :
  healthCheckMiddleware (runtime_of env_complete) "auth-service"
    (clients_throwing VNull) (EventObject (VStr "/api/v1/users") None)
  = ret None.
Proof. reflexivity. Qed.

(** C2, as stated, fails: the path test runs before the [try] block, so an
    event that is [null], or whose [path] is a number, makes the handler
    raise a [TypeError]. *)
Lemma C2_malformed_event_raises :
  outcome (healthCheckMiddleware (runtime_of env_complete) "auth-service"
             clients_absent EventNull)
    = Throw (VErr "Cannot read properties of null (reading 'path')") /\
  outcome (healthCheckMiddleware (runtime_of env_complete) "auth-service"
             clients_absent (EventObject (VNum 123) None))
    = Throw (VErr "event.path.includes is not a function").
Proof. split; reflexivity. Qed.

Lemma C2_middleware_on_requests_witness :
  exists response,
    outcome (healthCheckMiddleware (runtime_of env_complete) "auth-service"
               (clients_throwing (VErr "timeout")) health_event)
      = Ok (Some response) /\
    statusCode response = 503 /\
    status_field (body_data response) = VStr "unhealthy".
Proof.
  destruct (proj2 (proj2
    (C2_middleware_on_requests (runtime_of env_complete) "auth-service"
       (clients_throwing (VErr "timeout")) (VStr "/api/v1/health") None))
    "/api/v1/health" eq_refl eq_refl) as (response & Hr & _ & _ & Hc).
  exists response. split; [exact Hr|].
  apply (Hc (VErr "timeout")). cbn. apply elem_of_cons. by left.
Defined.

(** In production with nothing configured, the environment sub-check still
    reports the three missing variables. *)
Lemma C5_environment_subcheck_witness :
  exists hd,
    outcome (performHealthCheck (runtime_of env_production) "auth-service"
               clients_absent default_options) = Ok hd /\
    status_field (reported_check hd "environment") = VStr "warning" /\
    (reported_status hd = Some degraded \/ reported_status hd = Some unhealthy).
Proof.
  eexists. split; [reflexivity|].
  pose proof (C5_environment_subcheck (runtime_of env_production) "auth-service"
                clients_absent default_options _ eq_refl eq_refl) as [H _].
  destruct (H _ "DYNAMODB_TABLE_NAME" eq_refl) as (_ & Hrecord & Hstatus & _).
  - apply elem_of_cons. by left.
  - by left.
  - split; [|exact Hstatus]. apply Hrecord. cbn.
    rewrite !elem_of_cons, elem_of_nil. intros [?|[?|?]]; done.
Defined.

(** A service named like a property of [Object.prototype] makes the
    validator throw; the sub-check records the error. *)
Example performHealthCheck_validator_throws :
  exists hd,
    outcome (performHealthCheck (runtime_of env_complete) "constructor"
               None default_options) = Ok hd /\
    reported_check hd "environment"
      = error_record (VStr "requiredVars.filter is not a function") /\
    reported_status hd = Some unhealthy.
Proof. eexists. repeat split. Qed.

(** C5, as stated, fails: a client entry named "environment" replaces the
    record of the environment sub-check, so with a required variable
    missing the returned [checks.environment.status] is 'ok', not
    'warning'. *)
Lemma C5_client_named_environment :
  env_production !! "DYNAMODB_TABLE_NAME" = None /\
  exists hd,
    outcome (performHealthCheck (runtime_of env_production) "auth-service"
               (Some [ ("environment", ClientPlain) ]) default_options) = Ok hd /\
    reported_check hd "environment" = initialized_record /\
    status_field (reported_check hd "environment") = VStr "ok" /\
    status_field (reported_check hd "environment") <> VStr "warning" /\
    reported_status hd = Some degraded.
Proof. split; [reflexivity|]. eexists. repeat split. discriminate. Qed.

(** C10, as stated, fails: a [service] and a [version] that are present but
    empty are replaced by the defaults. *)
Lemma C10_present_but_empty :
  exists response,
    createLambdaHealthResponse (runtime_of env_complete)
      (VObj [ ("service", VStr ""); ("version", VStr "") ]) None = ret response /\
    lookup_prop "service" [ ("service", VStr ""); ("version", VStr "") ] = VStr "" /\
    body_meta response "service" = VStr "unknown-service" /\
    body_meta response "service"
      <> lookup_prop "service" [ ("service", VStr ""); ("version", VStr "") ] /\
    body_meta response "version" = VStr "1.0.0" /\
    body_meta response "version"
      <> lookup_prop "version" [ ("service", VStr ""); ("version", VStr "") ].
Proof. eexists. repeat split; discriminate. Qed.

End HealthExamples.

(* ===================================================================== *)
(** ** Properties of clients/aws-clients.js                                *)
(* ===================================================================== *)

Section ClientsProperties.
Import Environment Clients.

Lemma alloc_fresh (o : client_object) (h : gmap handle client_object) :
((alloc o h).1 ∉ dom h) /\
  (alloc o h).2 !! (alloc o h).1 = Some o /\
  dom (alloc o h).2 = {[ (alloc o h).1 ]} ∪ dom h.
Proof.
  unfold alloc. cbn. split; [apply is_fresh|]. split.
  - apply lookup_insert_eq.
  - apply dom_insert_L.
Qed.

Lemma global_object_Some (g : global_ref) (h : handle) :
  global_object g = Some h <-> g = GlobalObject h.
Proof. destruct g; cbn; split; congruence. Qed.

(** Unfolds a [get] down to the cases of the source. *)
Ltac cases_of_get :=
  unfold getClient, getCognitoClient, getDynamoDbClient,
    createCognitoClient, createDynamoDbDocumentClient, alloc;
  repeat match goal with
  | |- context [match ?x with _ => _ end] =>
      lazymatch x with
      | context [match _ with _ => _ end] => fail
      | _ => destruct x eqn:?
      end
  end; cbn in *;
  repeat match goal with
  | H : global_object _ = Some _ |- _ => apply global_object_Some in H
  end.

(** A filled slot is what [getClient] returns, and nothing changes. *)
Lemma getClient_memoized (k : kind) (env : gmap string string) (s : State)
    (h : handle) :
  slot k s = Some h -> getClient k env s = (h, s).
Proof. destruct k; cbn; intros H; cases_of_get; congruence. Qed.

(** [getClient] fills the slot of its kind with what it returns. *)
Lemma getClient_fills (k : kind) (env : gmap string string) (s : State) :
  slot k (getClient k env s).2 = Some (getClient k env s).1.
Proof. destruct k; cases_of_get; congruence. Qed.

(** [getClient] leaves the slot of the other kind alone. *)
Lemma getClient_other (k k' : kind) (env : gmap string string) (s : State) :
  k <> k' -> slot k' (getClient k env s).2 = slot k' s.
Proof. destruct k, k'; try done; intros _; cases_of_get; congruence. Qed.

Lemma getClient_extends (k : kind) (env : gmap string string) (s : State) :
  extends s (getClient k env s).2.
Proof.
  unfold extends. destruct k; cases_of_get;
    rewrite ?dom_insert_L; repeat split; set_solver.
Qed.

Lemma getClient_wf (k : kind) (env : gmap string string) (s : State) :
  wf s -> wf (getClient k env s).2.
Proof.
  intros Hwf. unfold wf in *.
  destruct k; cases_of_get; try done;
    intros x Hx; destruct_or!; simplify_eq;
    rewrite ?dom_insert_L;
    try (by apply Hwf; eauto 6);
    try (by repeat (apply elem_of_union; right); apply Hwf; eauto 6);
    set_solver.
Qed.

Lemma getClient_in_heap (k : kind) (env : gmap string string) (s : State) :
  wf s -> (getClient k env s).1 ∈ dom (heap (getClient k env s).2).
Proof.
  intros Hwf. apply (getClient_wf k env) in Hwf.
  pose proof (getClient_fills k env s) as Hslot.
  apply Hwf. destruct k; cbn in Hslot; auto.
Qed.

(** On an empty slot [getClient] takes the registered substitute when the
    runtime mode is "test", and constructs a client otherwise. *)
Lemma getClient_empty_slot (k : kind) (env : gmap string string) (s : State) :
  slot k s = None ->
  match substitute_taken k env s with
  | Some m => (getClient k env s).1 = m /\ heap (getClient k env s).2 = heap s
  | None =>
      ((getClient k env s).1 ∉ dom (heap s)) /\
      exists o, heap (getClient k env s).2 !! (getClient k env s).1 = Some o /\
                o <> Substitute
  end.
Proof.
  unfold substitute_taken.
  destruct k; cbn [slot substitute]; intros Hslot; cases_of_get; try done.
  all: try (split; [done|done]).
  all: split; [|eexists; split; [apply lookup_insert_eq|done]].
  all: try apply is_fresh.
  all: intros Hin;
       apply (is_fresh (dom (<[fresh (dom (heap s)) :=
         DynamoDBClient (sdk_config env)]> (heap s))));
       eapply elem_of_weaken; [exact Hin|apply dom_insert_subseteq].
Qed.

Lemma extends_refl (s : State) : extends s s.
Proof. by repeat split. Qed.

Lemma extends_trans (s1 s2 s3 : State) :
  extends s1 s2 -> extends s2 s3 -> extends s1 s3.
Proof.
  intros (A1 & B1 & C1) (A2 & B2 & C2). repeat split; [congruence..|set_solver].
Qed.

Lemma initializeClients_state (env : gmap string string) (s : State) :
  (initializeClients env s).2 =
    if node_env_is env "test" then s
    else (getClient DynamoDb env (getClient Cognito env s).2).2.
Proof.
  unfold initializeClients, getClient, getCognitoClient, getDynamoDbClient.
  destruct (node_env_is env "test"); cbn; [done|].
  destruct (createCognitoClient env s) as [h1 s1]. cbn.
  by destruct (createDynamoDbDocumentClient env s1).
Qed.

Lemma step_state (c : call) (env : gmap string string) (s : State) :
  (step c env s).2 =
    match c with
    | CallGet k => (getClient k env s).2
    | CallInitialize => (initializeClients env s).2
    | CallReset => resetClients s
    | CallHealth => s
    end.
Proof. destruct c; cbn; try done. by destruct (getClient k env s). Qed.

Lemma step_extends (c : call) (env : gmap string string) (s : State) :
  extends s (step c env s).2.
Proof.
  rewrite step_state. destruct c.
  - apply getClient_extends.
  - rewrite initializeClients_state. destruct (node_env_is env "test").
    + apply extends_refl.
    + eapply extends_trans; apply getClient_extends.
  - by repeat split.
  - apply extends_refl.
Qed.

Lemma resetClients_wf (s : State) : wf s -> wf (resetClients s).
Proof.
  intros Hwf x Hx. cbn in *. destruct_or!; try done; apply Hwf; auto.
Qed.

Lemma step_wf (c : call) (env : gmap string string) (s : State) :
  wf s -> wf (step c env s).2.
Proof.
  intros Hwf. rewrite step_state. destruct c.
  - by apply getClient_wf.
  - rewrite initializeClients_state. destruct (node_env_is env "test"); [done|].
    by do 2 apply getClient_wf.
  - by apply resetClients_wf.
  - done.
Qed.

Lemma getClient_keeps_slot (k k' : kind) (env : gmap string string) (s : State)
    (h : handle) :
  slot k s = Some h -> slot k (getClient k' env s).2 = Some h.
Proof.
  intros H. destruct k, k'.
  - by rewrite (getClient_memoized _ _ _ _ H).
  - by rewrite getClient_other.
  - by rewrite getClient_other.
  - by rewrite (getClient_memoized _ _ _ _ H).
Qed.

(** Only a reset empties a slot. *)
Lemma step_keeps_slot (c : call) (env : gmap string string) (s : State)
    (k : kind) (h : handle) :
  is_reset c = false -> slot k s = Some h -> slot k (step c env s).2 = Some h.
Proof.
  intros Hc H. rewrite step_state. destruct c; try done.
  - by apply getClient_keeps_slot.
  - rewrite initializeClients_state. destruct (node_env_is env "test"); [done|].
    by do 2 apply getClient_keeps_slot.
Qed.

Lemma run_cons (c : call) (env : gmap string string)
    (rest : list (call * gmap string string)) (s : State) :
  run ((c, env) :: rest) s =
    (match (step c env s).1 with
     | Some h => h :: (run rest (step c env s).2).1
     | None => (run rest (step c env s).2).1
     end,
     (run rest (step c env s).2).2).
Proof.
  cbn [run]. destruct (step c env s) as [r s1]. cbn.
  by destruct (run rest s1).
Qed.

Lemma run_keeps_slot (calls : list (call * gmap string string)) (s : State)
    (k : kind) (h : handle) :
  forallb (fun c => negb (is_reset c.1)) calls = true ->
  slot k s = Some h -> slot k (run calls s).2 = Some h.
Proof.
  revert s. induction calls as [|[c env] rest IH]; intros s Hc H; [done|].
  cbn in Hc. apply andb_true_iff in Hc as [Hc Hrest].
  rewrite run_cons. cbn [snd]. apply IH; [done|].
  apply step_keeps_slot; [|done]. by destruct (is_reset c).
Qed.

Lemma run_extends (calls : list (call * gmap string string)) (s : State) :
  extends s (run calls s).2.
Proof.
  revert s. induction calls as [|[c env] rest IH]; intros s.
  - apply extends_refl.
  - rewrite run_cons. cbn [snd]. eapply extends_trans; [apply step_extends|apply IH].
Qed.

Lemma run_wf (calls : list (call * gmap string string)) (s : State) :
  wf s -> wf (run calls s).2.
Proof.
  revert s. induction calls as [|[c env] rest IH]; intros s Hwf; [done|].
  rewrite run_cons. cbn [snd]. by apply IH, step_wf.
Qed.

(** Every handle handed out names an object that exists. *)
Lemma run_handed_in_heap (calls : list (call * gmap string string)) (s : State)
    (h : handle) :
  wf s -> h ∈ (run calls s).1 -> h ∈ dom (heap (run calls s).2).
Proof.
  revert s. induction calls as [|[c env] rest IH]; intros s Hwf.
  - cbn. by intros ?%elem_of_nil.
  - rewrite run_cons. cbn [fst snd].
    pose proof (step_wf c env s Hwf) as Hwf1.
    destruct (step c env s).1 as [h'|] eqn:Hr; [|by apply IH].
    intros [->|Hin]%elem_of_cons; [|by apply IH].
    destruct (run_extends rest (step c env s).2) as (_ & _ & Hsub).
    apply Hsub. rewrite step_state. clear Hsub Hwf1 IH.
    destruct c; cbn in Hr; try done.
    pose proof (getClient_in_heap k env s Hwf) as Hin.
    destruct (getClient k env s) as [h0 s0]. cbn in *. by injection Hr as <-.
Qed.

(** C6 (amended). For each kind, two [getClient] calls with no reset between
    them return the same reference, whatever else is called in between and
    whatever the environment is at either call.  After [resetAll], the next
    [getClient] of the kind returns the registered substitute when the
    runtime mode is "test" and one is registered (the same reference as
    before the reset, if that substitute was handed out then); otherwise it
    constructs a client whose reference is new: no object had it, and it
    differs from every handle handed out before the reset. *)
Theorem C6_memoized_until_reset (s0 : State)
    (before : list (call * gmap string string)) (k : kind) :
  wf s0 ->
  let s := (run before s0).2 in
  (forall env1 mid env2,
     forallb (fun c => negb (is_reset c.1)) mid = true ->
     (getClient k env2 (run mid (getClient k env1 s).2).2).1
       = (getClient k env1 s).1) /\
  (forall env,
     let after := getClient k env (resetClients s) in
     match substitute_taken k env s with
     | Some m => after.1 = m
     | None =>
         (after.1 ∉ dom (heap s)) /\
         (exists o, heap after.2 !! after.1 = Some o /\ o <> Substitute) /\
         (forall old, old ∈ (run before s0).1 -> after.1 <> old)
     end).
Proof.
  intros Hwf s. split.
  - intros env1 mid env2 Hmid.
    pose proof (getClient_fills k env1 s) as Hslot.
    apply (run_keeps_slot mid _ _ _ Hmid) in Hslot.
    by rewrite (getClient_memoized _ env2 _ _ Hslot).
  - intros env after.
    assert (slot k (resetClients s) = None) as Hempty by by destruct k.
    pose proof (getClient_empty_slot k env _ Hempty) as H.
    replace (substitute_taken k env (resetClients s))
      with (substitute_taken k env s) in H by by destruct k.
    fold after in H. cbn [resetClients heap] in H.
    destruct (substitute_taken k env s) as [m|]; [by destruct H|].
    destruct H as [Hnew Hobj]. split; [done|]. split; [done|].
    intros old Hold Heq. apply Hnew. rewrite Heq. by apply run_handed_in_heap.
Qed.

(** [getClient] reads two variables only: the runtime mode and the
    region. *)
Lemma getClient_reads (k : kind) (env env' : gmap string string) (s : State) :
  env' !! "NODE_ENV" = env !! "NODE_ENV" ->
  env' !! "AWS_REGION" = env !! "AWS_REGION" ->
  getClient k env' s = getClient k env s.
Proof.
  intros Hmode Hregion.
  assert (node_env_is env' "test" = node_env_is env "test") as Htest
    by (unfold node_env_is; by rewrite Hmode).
  assert (sdk_config env' = sdk_config env) as Hconfig
    by (unfold sdk_config, env_or; by rewrite Hregion).
  destruct k; unfold getClient, getCognitoClient, getDynamoDbClient,
    createCognitoClient, createDynamoDbDocumentClient;
    by rewrite Htest, Hconfig.
Qed.

(** C7 (amended). On an empty slot, what decides between the registered
    substitute and a real client is the runtime mode alone.  When it equals
    "test" and a substitute is registered for the kind, [getClient] returns
    the substitute, constructs nothing and memoizes it.  When it does not
    equal "test", [getClient] constructs a client, a new object that is not
    the substitute, whatever is registered and whatever the other two
    triggers of [isTestMode] are: the result of [getClient] is the same in
    any two environments that agree on the runtime mode and the region. *)
Theorem C7_substitute_when_mode_is_test (k : kind) (env : gmap string string)
    (s : State) :
  slot k s = None ->
  (forall m, node_env_is env "test" = true -> substitute k s = Some m ->
     (getClient k env s).1 = m /\
     heap (getClient k env s).2 = heap s /\
     slot k (getClient k env s).2 = Some m) /\
  (node_env_is env "test" = false ->
     ((getClient k env s).1 ∉ dom (heap s)) /\
     (exists o, heap (getClient k env s).2 !! (getClient k env s).1 = Some o /\
                o <> Substitute) /\
     (forall m, substitute k s = Some m -> m ∈ dom (heap s) ->
        (getClient k env s).1 <> m)) /\
  (forall env',
     env' !! "NODE_ENV" = env !! "NODE_ENV" ->
     env' !! "AWS_REGION" = env !! "AWS_REGION" ->
     getClient k env' s = getClient k env s).
Proof.
  intros Hslot.
  pose proof (getClient_empty_slot k env s Hslot) as H.
  unfold substitute_taken in H.
  split; [|split].
  - intros m Htest Hsub. rewrite Htest, Hsub in H.
    destruct H as [H1 H2]. split; [done|]. split; [done|].
    by rewrite getClient_fills, H1.
  - intros Htest. rewrite Htest in H. destruct H as [Hnew Hobj].
    split; [done|]. split; [done|].
    intros m _ Hin Heq. apply Hnew. by rewrite Heq.
  - intros env'. apply getClient_reads.
Qed.

End ClientsProperties.

Section ClientsExamples.
Import Environment Clients Samples.

(** C6, as stated, fails: in a test process the handle obtained after a
    reset is the registered substitute again, the very reference obtained
    before the reset. *)
Lemma C6_substitute_returned_again :
  let first := getClient Cognito env_test registry_with_substitutes in
  let second := getClient Cognito env_test (resetClients first.2) in
  first.1 = 1%positive /\ second.1 = first.1.
Proof. by vm_compute. Qed.

Lemma registry_with_substitutes_wf : wf registry_with_substitutes.
Proof.
  intros h [H|[H|[H|[H|H]]]]; cbn in H; try discriminate H;
    injection H as <-; apply elem_of_dom; exists Substitute; reflexivity.
Qed.

Lemma C6_memoized_until_reset_witness :
  (getClient DynamoDb env_production
     (run [ (CallGet Cognito, env_production); (CallHealth, env_test) ]
        (getClient DynamoDb env_partial
           (run [ (CallInitialize, env_test) ] registry_with_substitutes).2).2).2).1
  = (getClient DynamoDb env_partial
       (run [ (CallInitialize, env_test) ] registry_with_substitutes).2).1.
Proof.
  exact (proj1
    (C6_memoized_until_reset registry_with_substitutes
       [ (CallInitialize, env_test) ] DynamoDb registry_with_substitutes_wf)
    env_partial [ (CallGet Cognito, env_production); (CallHealth, env_test) ]
    env_production eq_refl).
Defined.

(** C7, as stated, fails: with only the test-worker identifier set,
    [isTestMode] holds and a substitute is registered, yet [getClient]
    constructs a real client. *)
Lemma C7_test_worker_not_consulted :
  let got := getClient Cognito env_jest_worker registry_with_substitutes in
  isTestEnvironment env_jest_worker = true /\
  substitute Cognito registry_with_substitutes = Some 1%positive /\
  slot Cognito registry_with_substitutes = None /\
  got.1 <> 1%positive /\
  heap got.2 !! got.1
    = Some (CognitoIdentityProviderClient (sdk_config env_jest_worker)).
Proof. by vm_compute. Qed.

Lemma C7_substitute_when_mode_is_test_witness :
  (getClient Cognito env_test registry_with_substitutes).1 = 1%positive /\
  (getClient Cognito env_jest_worker registry_with_substitutes).1 <> 1%positive.
Proof.
  split.
  - exact (proj1 (proj1
      (C7_substitute_when_mode_is_test Cognito env_test
         registry_with_substitutes eq_refl) 1%positive eq_refl eq_refl)).
  - apply (proj1 (proj2
      (C7_substitute_when_mode_is_test Cognito env_jest_worker
         registry_with_substitutes eq_refl)) eq_refl); [reflexivity|].
    apply elem_of_dom. exists Substitute. reflexivity.
Defined.

(** An empty slot and a global that the harness has set to [null] are
    strictly equal: [isMock] is reported although nothing is initialized. *)
Example getClientHealth_null_global :
  getClientHealth env_test
    {| heap := ∅; cognitoClient := None; dynamoDbClient := None;
       dynamoDbDocumentClient := None;
       mockCognitoClient := GlobalNull;
       mockDynamoDbDocumentClient := GlobalUnset |}
  = ({| initialized := false; isMock := true |},
     {| initialized := false; isMock := false |}).
Proof. reflexivity. Qed.

End ClientsExamples.

(* ===================================================================== *)
(** ** Properties of maskSensitiveEnvVars                                  *)
(* ===================================================================== *)

Section MaskingProperties.
Import Masking.

Lemma is_sensitive_spec (key : string) :
  is_sensitive key = true <->
  exists fragment, fragment ∈ sensitiveKeys /\ contains_ignoring_case key fragment.
Proof.
  unfold is_sensitive, contains_ignoring_case. rewrite existsb_exists. split.
  - intros (d & Hd & Hinc). exists d. split; [by apply list_elem_of_In|].
    apply includes_spec in Hinc as (pre & post & Hk). exists pre, post.
    rewrite Hk. f_equal. f_equal.
    cbn in Hd. destruct_or!; subst; done.
  - intros (d & Hd & pre & post & Hk). exists d. split; [by apply list_elem_of_In|].
    apply includes_spec. exists pre, post. rewrite Hk. f_equal. f_equal.
    apply list_elem_of_In in Hd. cbn in Hd. destruct_or!; subst; done.
Qed.

Lemma object_keys_spec (o : gmap string value) (key : string) :
  key ∈ object_keys o <-> is_Some (o !! key).
Proof.
  unfold object_keys. rewrite list_elem_of_fmap. split.
  - intros ([k v] & -> & Hin). apply elem_of_map_to_list in Hin. by eexists.
  - intros [v Hv]. exists (key, v). split; [done|]. by apply elem_of_map_to_list.
Qed.

Lemma mask_keys_lookup (ks : list string) (o : gmap string value) (key : string) :
  mask_keys ks o !! key =
    if decide (key ∈ ks /\ is_sensitive key = true) then Some (VStr MASKED)
    else o !! key.
Proof.
  revert o. induction ks as [|k ks IH]; intros o.
  - cbn. case_decide as H; [|done]. destruct H as [H _]. by apply elem_of_nil in H.
  - change (mask_keys (k :: ks) o)
      with (mask_keys ks (if is_sensitive k then <[k:=VStr MASKED]> o else o)).
    rewrite IH.
    destruct (decide (key ∈ ks /\ is_sensitive key = true)) as [[Hin Hs]|Hn].
    + rewrite decide_True; [done|]. split; [|done]. apply elem_of_cons. by right.
    + destruct (decide (key ∈ k :: ks /\ is_sensitive key = true))
        as [[Hin Hs]|Hn'].
      * apply elem_of_cons in Hin as [Heq|Hin]; [|by destruct Hn].
        subst k. by rewrite Hs, lookup_insert_eq.
      * destruct (is_sensitive k) eqn:Hs; [|done].
        rewrite lookup_insert_ne; [done|]. intros ->. apply Hn'.
        split; [apply elem_of_cons; by left|done].
Qed.

(** The store after the loop: only the new object has been written. *)
Lemma mask_loop_store (ks : list string) (masked : loc) (o : gmap string value)
    (σ : gmap loc (gmap string value)) :
  fold_left
    (fun σ key =>
       if is_sensitive key then store_write masked key (VStr MASKED) σ else σ)
    ks (<[masked := o]> σ)
  = <[masked := mask_keys ks o]> σ.
Proof.
  revert o. induction ks as [|k ks IH]; intros o; [done|].
  change (mask_keys (k :: ks) o)
    with (mask_keys ks (if is_sensitive k then <[k:=VStr MASKED]> o else o)).
  cbn [fold_left]. destruct (is_sensitive k).
  - unfold store_write. rewrite lookup_insert_eq, insert_insert_eq. apply IH.
  - apply IH.
Qed.

(** C8 (amended). For every input mapping, [maskSecrets] returns a new
    object (a shallow copy); neither the input object nor any other existing
    object is changed, and no key is added or dropped.  An entry whose key
    contains, letter case ignored, one of the six names of [sensitiveKeys]
    (COGNITO_USER_POOL_CLIENT_SECRET, AWS_ACCESS_KEY_ID,
    AWS_SECRET_ACCESS_KEY, DATABASE_PASSWORD, API_KEY, SECRET, spelled with
    underscores) holds "***MASKED***"; an entry whose key is ASCII text and
    contains none of them has the input's value. *)
Theorem C8_maskSecrets_copy (process_env : loc) (env : option loc)
    (σ : gmap loc (gmap string value)) (input : gmap string value) :
  σ !! default process_env env = Some input ->
  let after := (maskSensitiveEnvVars process_env env σ).1 in
  let masked := (maskSensitiveEnvVars process_env env σ).2 in
  σ !! masked = None /\
  masked <> default process_env env /\
  after !! default process_env env = Some input /\
  (forall l, l <> masked -> after !! l = σ !! l) /\
  exists out,
    after !! masked = Some out /\
    forall key,
      ((exists fragment,
          fragment ∈ sensitiveKeys /\ contains_ignoring_case key fragment) ->
       out !! key = (fun _ => VStr MASKED) <$> input !! key) /\
      (ascii_only key = true ->
       ~ (exists fragment,
          fragment ∈ sensitiveKeys /\ contains_ignoring_case key fragment) ->
       out !! key = input !! key).
Proof.
  intros Hin after masked.
  assert (masked = fresh (dom σ)) as Hm by reflexivity.
  assert (masked ∉ dom σ) as Hfresh by (rewrite Hm; apply is_fresh).
  assert (masked <> default process_env env) as Hne.
  { intros Heq. apply Hfresh. rewrite Heq. apply elem_of_dom. by eexists. }
  assert (after = <[masked := mask_keys (object_keys input) input]> σ) as Hafter.
  { unfold after, maskSensitiveEnvVars. cbn [fst]. fold masked.
    rewrite lookup_insert_eq, Hin. cbn [default from_option id].
    change (from_option id ∅ (Some input)) with input.
    apply mask_loop_store. }
  split; [by apply not_elem_of_dom|].
  split; [done|]. rewrite Hafter. split; [by rewrite lookup_insert_ne|].
  split; [intros l Hl; by rewrite lookup_insert_ne|].
  eexists. split; [apply lookup_insert_eq|].
  intros key. rewrite mask_keys_lookup, <- is_sensitive_spec. split.
  - intros Hs. case_decide as H.
    + destruct H as [[v Hv]%object_keys_spec _]. by rewrite Hv.
    + destruct (input !! key) as [v|] eqn:Hv; [|done].
      destruct H. split; [|done]. apply object_keys_spec. by eexists.
  - intros _ Hs. case_decide as H; [|done]. by destruct H.
Qed.

End MaskingProperties.

Section MaskingExamples.
Import Masking Samples.

Lemma C8_maskSecrets_copy_witness :
  (maskSensitiveEnvVars 1%positive None secrets_store).1 !! 1%positive
    = Some secrets_input.
Proof.
  exact (proj1 (proj2 (proj2
    (C8_maskSecrets_copy 1%positive None secrets_store secrets_input eq_refl)))).
Defined.

(** C8, as stated, fails: the names the code looks for are spelled with
    underscores, so keys that contain the fragments access-key-id and
    api-key of the stated denylist are returned as they are. *)
Lemma C8_hyphenated_keys_not_masked :
  let after := (maskSensitiveEnvVars 1%positive (Some 1%positive) hyphenated_store).1 in
  let masked := (maskSensitiveEnvVars 1%positive (Some 1%positive) hyphenated_store).2 in
  "access-key-id" ∈ denylist_as_specified /\
  "api-key" ∈ denylist_as_specified /\
  contains_ignoring_case "access-key-id" "access-key-id" /\
  contains_ignoring_case "Api-Key" "api-key" /\
  after !! masked
    = Some {[ "access-key-id" := VStr "AKIA"; "Api-Key" := VStr "k" ]}.
Proof.
  cbn zeta. split; [|split; [|split; [|split]]].
  - unfold denylist_as_specified. rewrite !elem_of_cons. auto.
  - unfold denylist_as_specified. rewrite !elem_of_cons. auto 10.
  - by exists "", "".
  - by exists "", "".
  - by vm_compute.
Qed.

(** The redaction example. *)
Example maskSecrets_example :
  let after := (maskSensitiveEnvVars 1%positive (Some 1%positive) secrets_store).1 in
  let masked := (maskSensitiveEnvVars 1%positive (Some 1%positive) secrets_store).2 in
  after !! masked
    = Some {[ "API_KEY" := VStr "***MASKED***"; "NORMAL" := VStr "y" ]} /\
  after !! 1%positive = Some secrets_input.
Proof. by vm_compute. Qed.

(** Letter case is ignored, and a key that only contains a fragment is
    masked as well. *)
Example is_sensitive_examples :
  is_sensitive "api_key" = true /\
  is_sensitive "My_Secret_Token" = true /\
  is_sensitive "DATABASE_URL" = false /\
  is_sensitive "ACCESS_KEY_ID" = false.
Proof. by vm_compute. Qed.

End MaskingExamples.

(* ===================================================================== *)
(** ** Further properties of utils/environment.js                          *)
(* ===================================================================== *)

Section EnvironmentFurther.
Import Environment.

Lemma console_bind {A B} (m : M A) (f : A -> M B) :
  console (bind m f) =
    match outcome m with
    | Ok a => console m ++ console (f a)
    | Throw _ => console m
    end.
Proof.
  destruct m as [out [a|e]]; cbn; [|reflexivity].
  by destruct (f a).
Qed.

Lemma console_try_catch {A} (body : M A) (handler : value -> M A) :
  console (try_catch body handler) =
    match outcome body with
    | Ok _ => console body
    | Throw e => console body ++ console (handler e)
    end.
Proof.
  destruct body as [out [a|e]]; cbn; [reflexivity|].
  by destruct (handler e).
Qed.

Lemma validateEnvironment_console_cases (env : gmap string string)
    (requiredKeys : list string) (options : ValidateOptions) :
  let name := default "unknown-service" (serviceName options) in
  let miss := List.filter (env_unset env) requiredKeys in
  console (validateEnvironment env (ReqArray requiredKeys) options) =
    if default true (skipInProduction options) && node_env_is env "production"
    then []
    else if bool_decide (miss = []) then []
    else [warning_line name miss].
Proof.
  intros name miss. unfold validateEnvironment.
  destruct (default true (skipInProduction options) && node_env_is env "production");
    [reflexivity|].
  cbn [filter_missing]. fold miss. fold name.
  unfold bind at 1. cbn [ret].
  rewrite length_pos_nil, length_zero_nil.
  destruct (bool_decide_reflect (miss = [])) as [E|E].
  - rewrite E. reflexivity.
  - cbn [negb]. destruct (default false (throwOnMissing options)); reflexivity.
Qed.

(** X1. What [validateEnvironment] writes to the console is what it hands
    back.  It writes nothing exactly when the production short-circuit
    applies or nothing is missing; in every other case it writes the one
    line "<serviceName>: Missing environment variables: <names joined by
    ', '>", whether it then returns or throws.  When the call returns,
    [warnings] is the list of lines written; when it throws, the line was
    written and is the message of the error. *)
Theorem validateEnvironment_logs_what_it_reports (env : gmap string string)
    (requiredKeys : list string) (options : ValidateOptions) :
  let run := validateEnvironment env (ReqArray requiredKeys) options in
  let name := default "unknown-service" (serviceName options) in
  let miss := List.filter (env_unset env) requiredKeys in
  let short_circuit :=
    default true (skipInProduction options) && node_env_is env "production" in
  console run =
    (if short_circuit || bool_decide (miss = []) then []
     else [name +:+ ": Missing environment variables: " +:+ join ", " miss]) /\
  (forall r, outcome run = Ok r -> warnings r = console run) /\
  (forall e, outcome run = Throw e ->
     console run = [warning_line name miss] /\ e = VErr (warning_line name miss)).
Proof.
  intros run name miss short_circuit. unfold run.
  rewrite validateEnvironment_console_cases, validateEnvironment_outcome.
  fold name miss short_circuit.
  destruct short_circuit.
  { split; [done|]. split; [by intros r [= <-]|done]. }
  destruct (bool_decide (miss = [])).
  { split; [done|]. split; [by intros r [= <-]|done]. }
  split; [done|].
  destruct (default false (throwOnMissing options)).
  - split; [done|]. by intros e [= <-].
  - split; [by intros r [= <-]|done].
Qed.

(** X2. With [throwOnMissing] set, [validateEnvironment] throws exactly when
    the production short-circuit does not apply and some required variable
    is empty, or absent and not the name of a property that [process.env]
    inherits from [Object.prototype]; the error message lists the missing
    names. *)
Theorem validateEnvironment_throwOnMissing (env : gmap string string)
    (requiredKeys : list string) (options : ValidateOptions) :
  default false (throwOnMissing options) = true ->
  let run := validateEnvironment env (ReqArray requiredKeys) options in
  ((exists e, outcome run = Throw e) <->
     default true (skipInProduction options) && node_env_is env "production" = false /\
     exists k, k ∈ requiredKeys /\
               (env !! k = Some "" \/
                (env !! k = None /\ k ∉ object_prototype_keys))) /\
  (forall e, outcome run = Throw e ->
     e = VErr (warning_line (default "unknown-service" (serviceName options))
                 (List.filter (env_unset env) requiredKeys))).
Proof.
  intros Hthrow run. unfold run. rewrite validateEnvironment_outcome, Hthrow.
  set (miss := List.filter (env_unset env) requiredKeys).
  assert (miss <> [] <->
          exists k, k ∈ requiredKeys /\
                    (env !! k = Some "" \/
                     (env !! k = None /\ k ∉ object_prototype_keys)))
    as Hmiss.
  { split.
    - intros Hne. destruct miss as [|k rest] eqn:E; [done|].
      assert (k ∈ List.filter (env_unset env) requiredKeys) as Hin.
      { fold miss. rewrite E. by left. }
      apply list_elem_of_In, filter_In in Hin as [Hin Hu].
      exists k. split; [by apply list_elem_of_In|].
      rewrite <- is_inherited_spec. by apply env_unset_spec.
    - intros (k & Hin & Hu) Hnil.
      assert (k ∈ miss) as Hk.
      { apply list_elem_of_In, filter_In. split; [by apply list_elem_of_In|].
        apply env_unset_spec. by rewrite is_inherited_spec. }
      rewrite Hnil in Hk. by apply elem_of_nil in Hk. }
  destruct (default true (skipInProduction options) && node_env_is env "production").
  { split; [|done]. split; [by intros [e ?]|by intros [? _]]. }
  destruct (bool_decide_reflect (miss = [])) as [E|E].
  - split; [|done]. split; [by intros [e ?]|].
    intros [_ Hk]. by apply Hmiss in Hk.
  - split; [|by intros e [= <-]]. split; [|by eexists].
    intros _. split; [done|]. by apply Hmiss.
Qed.

(** X3. Giving a variable a non-empty value removes exactly that name from
    [missing] and leaves the rest of the list as it was (the variable is not
    the runtime mode, and the short-circuit does not apply). *)
Theorem validateEnvironment_after_setting (env : gmap string string)
    (requiredKeys : list string) (options : ValidateOptions)
    (k v : string) (r r' : Validation) :
  v <> "" ->
  k <> "NODE_ENV" ->
  default true (skipInProduction options) && node_env_is env "production" = false ->
  outcome (validateEnvironment env (ReqArray requiredKeys) options) = Ok r ->
  outcome (validateEnvironment (<[k := v]> env) (ReqArray requiredKeys) options)
    = Ok r' ->
  missing r' = List.filter (fun x => negb (String.eqb x k)) (missing r).
Proof.
  intros Hv Hk Hs H H'.
  assert (node_env_is (<[k := v]> env) "production" = node_env_is env "production")
    as Hmode.
  { unfold node_env_is. by rewrite lookup_insert_ne. }
  rewrite validateEnvironment_outcome in H, H'. rewrite Hmode, Hs in H'.
  rewrite Hs in H.
  assert (List.filter (env_unset (<[k := v]> env)) requiredKeys
          = List.filter (fun x => negb (String.eqb x k))
              (List.filter (env_unset env) requiredKeys)) as Hfilter.
  { assert (forall x, env_unset (<[k := v]> env) x
                      = env_unset env x && negb (String.eqb x k)) as Hu.
    { intros x. unfold env_unset, env_lookup.
      destruct (String.eqb_spec x k) as [->|Hne].
      - rewrite lookup_insert_eq, andb_false_r. cbn. rewrite negb_involutive.
        by apply String.eqb_neq.
      - rewrite lookup_insert_ne by done. by rewrite andb_true_r. }
    clear -Hu. induction requiredKeys as [|x l IH]; [done|]. cbn.
    rewrite Hu. destruct (env_unset env x); cbn; [|exact IH].
    destruct (negb (String.eqb x k)); by rewrite IH. }
  assert (missing r = List.filter (env_unset env) requiredKeys) as ->.
  { destruct (bool_decide_reflect (List.filter (env_unset env) requiredKeys = []))
      as [E|E]; [injection H as <-; by rewrite E|].
    destruct (default false (throwOnMissing options)); [done|]. by injection H as <-. }
  rewrite <- Hfilter.
  destruct (bool_decide_reflect
              (List.filter (env_unset (<[k := v]> env)) requiredKeys = []))
    as [E|E]; [injection H' as <-; by rewrite E|].
  destruct (default false (throwOnMissing options)); [done|]. by injection H' as <-.
Qed.

(** X4. A service that the catalog does not list (and whose name is no
    property of [Object.prototype]) is valid by default: in every
    environment and with every option, [throwOnMissing] included,
    [validateServiceEnvironment] returns [valid: true] with nothing missing,
    no warning, and writes nothing to the console. *)
Theorem validateServiceEnvironment_unlisted_service (env : gmap string string)
    (name : string) (options : ValidateOptions) :
  assoc name SERVICE_ENV_VARS = None ->
  existsb (String.eqb name) object_prototype_keys = false ->
  exists r,
    validateServiceEnvironment env name options = ret r /\
    valid r = true /\ missing r = [] /\ warnings r = [].
Proof.
  intros Hcat Hproto. unfold validateServiceEnvironment, required_for.
  rewrite Hcat, Hproto. unfold validateEnvironment. cbn [serviceName skipInProduction
    throwOnMissing filter_missing List.filter].
  destruct (default true (skipInProduction options) && node_env_is env "production");
    by eexists.
Qed.

(** X5. A service named like a property that every object inherits
    ("constructor", "toString", ...) is looked up to a value that is no
    array: outside the production short-circuit [validateServiceEnvironment]
    throws a [TypeError]; inside it, it returns [valid: true] without
    having looked at the value. *)
Theorem validateServiceEnvironment_inherited_name (env : gmap string string)
    (name : string) (options : ValidateOptions) :
  name ∈ object_prototype_keys ->
  outcome (validateServiceEnvironment env name options) =
    if default true (skipInProduction options) && node_env_is env "production"
    then Ok {| valid := true; missing := []; warnings := [];
               v_serviceName := None |}
    else Throw (VErr "requiredVars.filter is not a function").
Proof.
  intros Hin.
  assert (required_for name = ReqNotArray) as Hreq.
  { apply list_elem_of_In in Hin. cbn in Hin. destruct_or!; subst; done. }
  unfold validateServiceEnvironment. rewrite Hreq. unfold validateEnvironment.
  cbn [serviceName skipInProduction throwOnMissing].
  by destruct (default true (skipInProduction options) && node_env_is env "production").
Qed.

(** X6. For a service of the catalog, a [serviceName] given in the options
    replaces the name in the returned record and in the logged line, while
    the required variables stay those of the service asked for. *)
Theorem validateServiceEnvironment_name_override (env : gmap string string)
    (name : string) (keys : list string) (options : ValidateOptions)
    (r : Validation) :
  assoc name SERVICE_ENV_VARS = Some keys ->
  default true (skipInProduction options) && node_env_is env "production" = false ->
  outcome (validateServiceEnvironment env name options) = Ok r ->
  let shown := default name (serviceName options) in
  let miss := List.filter (env_unset env) keys in
  v_serviceName r = Some shown /\
  missing r = miss /\
  (miss <> [] ->
     warnings r = [warning_line shown miss] /\
     console (validateServiceEnvironment env name options)
       = [warning_line shown miss]).
Proof.
  intros Hcat Hs H shown miss.
  unfold validateServiceEnvironment, required_for in *. rewrite Hcat in *.
  rewrite validateEnvironment_console_cases.
  rewrite validateEnvironment_outcome in H.
  cbn [serviceName skipInProduction throwOnMissing default from_option id] in *.
  change (from_option id name (serviceName options)) with shown in H |- *.
  fold miss in H |- *. rewrite Hs in H |- *.
  destruct (bool_decide_reflect (miss = [])) as [E|E].
  - injection H as <-. by rewrite E.
  - destruct (from_option id false (throwOnMissing options)); [done|].
    by injection H as <-.
Qed.

(** X7. The snapshot of [getEnvironmentInfo] is consistent: each mode flag
    holds exactly when [nodeEnv] is the mode's name, so at most one of
    [isTest], [isProduction], [isDevelopment] is set; and [nodeEnv],
    [awsRegion] and [serviceVersion] are never empty, an unset or empty
    variable being replaced by its fallback. *)
Theorem getEnvironmentInfo_consistent (env : gmap string string) (now : string) :
  let info := getEnvironmentInfo env now in
  (isTest info = true <-> nodeEnv info = "test") /\
  (isProduction info = true <-> nodeEnv info = "production") /\
  (isDevelopment info = true <->
     nodeEnv info = "development" \/ nodeEnv info = "dev") /\
  (isTest info && isProduction info = false) /\
  (isTest info && isDevelopment info = false) /\
  (isProduction info && isDevelopment info = false) /\
  nodeEnv info <> "" /\ awsRegion info <> "" /\ serviceVersion info <> "".
Proof.
  cbn. unfold node_env_is, env_or.
  assert (forall name fallback, fallback <> "" ->
            (match env !! name with
             | Some v => if String.eqb v "" then fallback else v
             | None => fallback
             end) <> "") as Hne.
  { intros name fallback Hf. destruct (env !! name) as [v|]; [|done].
    by destruct (String.eqb_spec v ""). }
  repeat split; try (by apply Hne);
    destruct (env !! "NODE_ENV") as [v|]; try done;
    repeat match goal with
    | |- context [String.eqb v ?lit] => destruct (String.eqb_spec v lit); subst
    end; cbn in *; try done; try tauto; try (intros [?|?]; done); auto.
Qed.

(** X8. [isTestEnvironment] holds exactly when the runtime mode is "test",
    or the test-worker variable has a non-empty value, or the
    lifecycle-event variable contains "test" anywhere; in particular it
    holds whenever [getEnvironmentInfo] reports [isTest]. *)
Theorem isTestEnvironment_spec (env : gmap string string) (now : string) :
  (isTestEnvironment env = true <->
     env !! "NODE_ENV" = Some "test" \/
     (exists v, env !! "JEST_WORKER_ID" = Some v /\ v <> "") \/
     (exists pre post,
        env !! "npm_lifecycle_event" = Some (pre +:+ "test" +:+ post))) /\
  (isTest (getEnvironmentInfo env now) = true -> isTestEnvironment env = true) /\
  isProductionEnvironment env = isProduction (getEnvironmentInfo env now).
Proof.
  assert (isTestEnvironment env = true <->
     env !! "NODE_ENV" = Some "test" \/
     (exists v, env !! "JEST_WORKER_ID" = Some v /\ v <> "") \/
     (exists pre post,
        env !! "npm_lifecycle_event" = Some (pre +:+ "test" +:+ post))) as Hspec.
  { unfold isTestEnvironment, node_env_is.
    rewrite !orb_true_iff.
    assert ((match env !! "NODE_ENV" with
             | Some v => String.eqb v "test" | None => false end) = true
            <-> env !! "NODE_ENV" = Some "test") as HA.
    { destruct (env !! "NODE_ENV") as [v|]; [|done].
      rewrite String.eqb_eq. split; [by intros ->|by intros [= ->]]. }
    assert (negb (env_unset env "JEST_WORKER_ID") = true
            <-> exists v, env !! "JEST_WORKER_ID" = Some v /\ v <> "") as HB.
    { rewrite negb_true_iff, <- not_true_iff_false, env_unset_own by done.
      destruct (env !! "JEST_WORKER_ID") as [v|].
      - split.
        + intros H. exists v. split; [done|]. intros ->. apply H. by right.
        + intros (w & [= <-] & Hw) [?|[= ?]]; done.
      - split; [intros H; destruct H; by left|]. by intros (w & [=] & _). }
    assert ((match env !! "npm_lifecycle_event" with
             | Some v => includes "test" v | None => false end) = true
            <-> exists pre post,
                  env !! "npm_lifecycle_event" = Some (pre +:+ "test" +:+ post))
      as HC.
    { destruct (env !! "npm_lifecycle_event") as [v|].
      - rewrite includes_spec. split.
        + intros (pre & post & ->). by exists pre, post.
        + intros (pre & post & [= ->]). by exists pre, post.
      - split; [done|]. by intros (pre & post & [=]). }
    rewrite HA, HB, HC. tauto. }
  split; [exact Hspec|]. split; [|reflexivity].
  cbn. unfold node_env_is. intros H. apply Hspec. left.
  destruct (env !! "NODE_ENV") as [v|]; [|done].
  by apply String.eqb_eq in H as ->.
Qed.

End EnvironmentFurther.

(* ===================================================================== *)
(** ** Further properties of utils/health.js                               *)
(* ===================================================================== *)

Section HealthFurther.
Import Environment Health.







(** X10. [checkAWSClientHealth] never throws.  It reports status 'error'
    and [initialized: false] exactly for a falsy client; for every other
    client it reports 'ok', [initialized: true], and the region, attempt
    ceiling and timeout of the client's [config], each replaced by its
    fallback ('unknown', 'default', 'default') when the client has no
    config or the entry is missing or falsy. *)
Theorem checkAWSClientHealth_total (awsClient : value) (clientType : option string) :
  exists record,
    checkAWSClientHealth awsClient clientType = ret record /\
    record_field record "type" = VStr (default "unknown" clientType) /\
    record_field record "status"
      = VStr (if truthy awsClient then "ok" else "error") /\
    record_field record "initialized" = VBool (truthy awsClient) /\
    (truthy awsClient = true ->
       let config := js_or (record_field awsClient "config") (VObj []) in
       record_field record "region"
         = js_or (record_field config "region") (VStr "unknown") /\
       record_field record "maxAttempts"
         = js_or (record_field config "maxAttempts") (VStr "default") /\
       record_field record "timeout"
         = js_or (record_field config "requestTimeout") (VStr "default")).
Proof.
  unfold checkAWSClientHealth.
  destruct (truthy awsClient) eqn:Ht; cbn [negb].
  - assert (get_prop awsClient "config" = ret (record_field awsClient "config"))
      as ->.
    { destruct awsClient; try done. }
    cbn [bind ret]. set (config := js_or (record_field awsClient "config") (VObj [])).
    assert (truthy config = true) as Hc.
    { unfold config, js_or.
      by destruct (truthy (record_field awsClient "config")) eqn:E. }
    assert (forall k, k <> "message" ->
              get_prop config k = ret (record_field config k)) as Hget.
    { intros k Hk. destruct config; try done. cbn.
      destruct (String.eqb_spec k "message"); done. }
    rewrite !Hget by done. cbn -[js_or record_field]. eexists.
    split; [reflexivity|]. repeat split.
  - eexists. do 4 (split; [reflexivity|]). intros [=].
Qed.

(** X11. [createLambdaHealthResponse] throws a [TypeError], raised by
    reading [healthData.service], when [healthData] is [null] or
    [undefined], whatever the status code.  A payload that is a boolean, a
    number or a string is accepted: the envelope carries the defaults
    "unknown-service" and "1.0.0" in [meta].  Whenever the call returns, the
    envelope has the given status code, 200 when none is given, the fixed
    headers, and the payload under [data]. *)
Theorem createLambdaHealthResponse_payload (rt : Runtime) (healthData : value)
    (code : option Z) :
  (healthData = VNull \/ healthData = VUndefined ->
     exists m,
       outcome (createLambdaHealthResponse rt healthData code) = Throw (VErr m) /\
       includes "(reading 'service')" m = true) /\
  ((exists b, healthData = VBool b) \/ (exists n, healthData = VNum n) \/
   (exists s, healthData = VStr s) ->
     exists response,
       outcome (createLambdaHealthResponse rt healthData code) = Ok response /\
       body_meta response "service" = VStr "unknown-service" /\
       body_meta response "version" = VStr "1.0.0") /\
  (forall response,
     outcome (createLambdaHealthResponse rt healthData code) = Ok response ->
     statusCode response = default 200 code /\
     headers response = fixed_headers /\
     body_data response = healthData).
Proof.
  split; [|split].
  - intros [-> | ->]; eexists; split; reflexivity.
  - intros [[b ->]|[[n ->]|[s ->]]]; eexists; repeat split.
  - destruct healthData; cbn; try done; intros response [= <-]; repeat split.
Qed.

Lemma throws_nullish_cases (c : client) : throws_nullish c \/ ~ throws_nullish c.
Proof.
  unfold throws_nullish. destruct c as [| |[record|e]];
    try (right; by intros [?|?]).
  destruct e; try (right; by intros [[=]|[=]]); left; auto.
Qed.

Lemma classic_nullish (l : list client) :
  (exists c, c ∈ l /\ throws_nullish c) \/
  ~ (exists c, c ∈ l /\ throws_nullish c).
Proof.
  induction l as [|c l IH].
  - right. intros (c & Hin & _). by apply elem_of_nil in Hin.
  - destruct (throws_nullish_cases c) as [Hc|Hc].
    + left. exists c. split; [by left|done].
    + destruct IH as [(c' & Hin & Hc')|Hn].
      * left. exists c'. split; [by right|done].
      * right. intros (c' & Hin & Hc'). apply elem_of_cons in Hin as [->|Hin];
          [done|]. apply Hn. by exists c'.
Qed.

Lemma clientChecks_throws (entries : list (string * client)) (s : check_state) :
  (exists c, c ∈ entries.*2 /\ throws_nullish c) ->
  outcome (clientChecks entries s)
    = Throw (VErr "Cannot read properties of null (reading 'message')") \/
  outcome (clientChecks entries s)
    = Throw (VErr "Cannot read properties of undefined (reading 'message')").
Proof.
  revert s. induction entries as [|[name c] rest IH]; intros [checks st] (c0 & Hin & Hc0).
  - by apply elem_of_nil in Hin.
  - cbn [clientChecks]. rewrite outcome_bind, clientCheck_outcome.
    assert (~ throws_nullish c -> exists c1, c1 ∈ rest.*2 /\ throws_nullish c1)
      as Hrest.
    { intros Hc. cbn in Hin. apply elem_of_cons in Hin as [->|Hin]; [done|].
      by exists c0. }
    destruct c as [| |[record|e]];
      try (apply IH, Hrest; by intros [?|?]).
    destruct e; try (apply IH, Hrest; by intros [[=]|[=]]); cbn; auto.
Qed.

(** X12. [performHealthCheck] rejects exactly when the client checks are
    enabled and the health call of some client throws [null] or
    [undefined] (the [catch] block cannot read [error.message]); what it
    throws is that [TypeError].  A missing environment, an absent client or
    a client throwing anything else never makes it reject. *)
Theorem performHealthCheck_rejects_iff (rt : Runtime) (service : string)
    (clients : option (list (string * client))) (options : HealthOptions) :
  ((exists e, outcome (performHealthCheck rt service clients options) = Throw e)
     <-> default true (checkClients options) = true /\
         exists c, c ∈ (default [] clients).*2 /\ throws_nullish c) /\
  (forall e, outcome (performHealthCheck rt service clients options) = Throw e ->
     e = VErr "Cannot read properties of null (reading 'message')" \/
     e = VErr "Cannot read properties of undefined (reading 'message')").
Proof.
  assert (outcome (performHealthCheck rt service clients options) =
          match (if default true (checkClients options)
                 then outcome (clientChecks (default [] clients)
                        (after_state rt service options))
                 else Ok (after_state rt service options)) with
          | Ok (checks, st) =>
              Ok (healthReport st service (getEnvironmentInfo (env rt) (now rt))
                    (with_metrics rt options checks))
          | Throw e => Throw e
          end) as Hout.
  { rewrite performHealthCheck_outcome, runChecks_outcome.
    unfold after_state.
    destruct (after_environment_returns rt service options) as [checks0 H0].
    rewrite H0. cbn [default from_option id fst snd]. done. }
  rewrite Hout. clear Hout.
  destruct (default true (checkClients options)).
  - destruct (classic_nullish (default [] clients).*2) as [Hex|Hnone].
    + destruct (clientChecks_throws _ (after_state rt service options) Hex)
        as [-> | ->].
      * split; [|intros e [= <-]; by left]. split; [done|by eexists].
      * split; [|intros e [= <-]; by right]. split; [done|by eexists].
    + destruct (clientChecks_returns (default [] clients)
                  (after_state rt service options)) as [[checks st] ->].
      { intros c Hin Hc. apply Hnone. by exists c. }
      split; [|done]. split; [by intros [e ?]|]. by intros [_ Hex].
  - destruct (after_state rt service options) as [checks st].
    split; [|done]. split; [by intros [e ?]|by intros [? _]].
Qed.

(** The completion of [performHealthCheck], from the state the environment
    block leaves. *)
Lemma performHealthCheck_cases (rt : Runtime) (service : string)
    (clients : option (list (string * client))) (options : HealthOptions) :
  outcome (performHealthCheck rt service clients options) =
    match (if default true (checkClients options)
           then outcome (clientChecks (default [] clients)
                           (after_state rt service options))
           else Ok (after_state rt service options)) with
    | Ok (checks, st) =>
        Ok (healthReport st service (getEnvironmentInfo (env rt) (now rt))
              (with_metrics rt options checks))
    | Throw e => Throw e
    end.
Proof.
  rewrite performHealthCheck_outcome, runChecks_outcome. unfold after_state.
  destruct (after_environment_returns rt service options) as [checks0 H0].
  by rewrite H0.
Qed.

(** The environment block writes the key "environment" and no other. *)
Lemma after_state_other_keys (rt : Runtime) (service : string)
    (options : HealthOptions) (k : string) :
  k <> "environment" ->
  lookup_prop k (after_state rt service options).1 = VUndefined.
Proof.
  intros Hk. unfold after_state, after_environment.
  destruct (default true (checkEnvironment options)); [|done].
  rewrite environmentCheck_outcome.
  destruct (outcome (health_validation rt service)) as [r|e].
  - cbn [fst]. by rewrite lookup_set_prop_ne.
  - destruct (outcome (get_prop e "message")); [|done].
    cbn [fst]. by rewrite lookup_set_prop_ne.
Qed.

(** X13. With [includeMetrics] the returned report holds the process
    readings under [checks.performance], also when a client is named
    "performance" (its record is replaced); without it, and with no client
    of that name, the report has no [performance] check. *)
Theorem performHealthCheck_metrics (rt : Runtime) (service : string)
    (clients : option (list (string * client))) (options : HealthOptions)
    (hd : value) :
  outcome (performHealthCheck rt service clients options) = Ok hd ->
  (default false (includeMetrics options) = true ->
     reported_check hd "performance" = performance_record rt) /\
  (default false (includeMetrics options) = false ->
     "performance" ∉ (default [] clients).*1 ->
     reported_check hd "performance" = VUndefined).
Proof.
  rewrite performHealthCheck_cases. intros H.
  destruct (if default true (checkClients options) then _ else _)
    as [[checks st]|e] eqn:E; [|done].
  injection H as <-. rewrite reported_check_healthReport. unfold with_metrics.
  split; intros ->.
  - apply lookup_set_prop_eq.
  - intros Hname.
    destruct (default true (checkClients options)).
    + destruct (after_state rt service options) as [checks0 st0] eqn:E0.
      rewrite (clientChecks_untouched _ _ _ _ _ _ Hname E).
      change checks0 with (checks0, st0).1. rewrite <- E0.
      by apply after_state_other_keys.
    + injection E as E. rewrite <- (after_state_other_keys rt service options
        "performance") by done. by rewrite E.
Qed.

(** X14. Every envelope the middleware returns names the service under
    [data.service] and, unless the name is empty, under [meta.service];
    its [meta.version] is always "1.0.0", whatever [SERVICE_VERSION] is,
    because neither the report nor the error payload has a [version]
    field; and it carries the fixed headers. *)
Theorem healthCheckMiddleware_meta (rt : Runtime) (service : string)
    (clients : option (list (string * client))) (event : Event)
    (response : LambdaResponse) :
  outcome (healthCheckMiddleware rt service clients event) = Ok (Some response) ->
  headers response = fixed_headers /\
  record_field (body_data response) "service" = VStr service /\
  body_meta response "service"
    = VStr (if String.eqb service "" then "unknown-service" else service) /\
  body_meta response "version" = VStr "1.0.0" /\
  body_meta response "apiVersion" = VStr "v1" /\
  body_meta response "environment" = VStr (env_or (env rt) "NODE_ENV" "unknown").
Proof.
  rewrite healthCheckMiddleware_outcome.
  destruct (outcome (not_health_path event)) as [[|]|]; [done| |done].
  destruct (outcome (performHealthCheck _ _ _ _)) as [hd|e] eqn:Hcheck.
  - rewrite performHealthCheck_outcome in Hcheck.
    destruct (outcome (runChecks _ _ _ _)) as [[checks st]|?]; [|done].
    injection Hcheck as <-. cbn. intros [= <-]. cbn.
    unfold js_or. cbn. by destruct (String.eqb service "").
  - destruct (performHealthCheck_throws_errors_only _ _ _ _ _ Hcheck) as [m ->].
    cbn. intros [= <-]. cbn.
    unfold js_or. cbn. by destruct (String.eqb service "").
Qed.

Lemma get_prop_console (v : value) (k : string) : console (get_prop v k) = [].
Proof. by destruct v. Qed.

Lemma clientCheck_console (entry : string * client) (s : check_state) :
  console (clientCheck entry s) = [].
Proof.
  destruct entry as [name c], s as [checks st]. unfold clientCheck.
  rewrite console_try_catch.
  destruct c as [| |[record|e]]; try done.
  cbn -[get_prop]. rewrite console_bind, get_prop_console.
  by destruct (outcome (get_prop e "message")).
Qed.

Lemma clientChecks_console (entries : list (string * client)) (s : check_state) :
  console (clientChecks entries s) = [].
Proof.
  revert s. induction entries as [|entry rest IH]; intros s; [done|].
  cbn [clientChecks]. rewrite console_bind, clientCheck_console.
  destruct (outcome (clientCheck entry s)); [apply IH|done].
Qed.

Lemma environmentCheck_console (validation : M Validation) (s : check_state) :
  console (environmentCheck validation s) = console validation.
Proof.
  destruct s as [checks st]. unfold environmentCheck.
  rewrite console_try_catch, outcome_bind, console_bind.
  destruct (outcome validation) as [r|e]; cbn -[get_prop].
  - apply app_nil_r.
  - rewrite console_bind, get_prop_console.
    destruct (outcome (get_prop e "message")); cbn; apply app_nil_r.
Qed.

(** X15. A health check writes to the console exactly what its validator
    call writes: when the environment sub-check is enabled and a required
    variable of the service is absent or empty, the one missing-variables
    line, on every call and in every runtime mode; nothing otherwise.  The
    client checks write nothing, not even when they fail. *)
Theorem performHealthCheck_console (rt : Runtime) (service : string)
    (clients : option (list (string * client))) (options : HealthOptions) :
  console (performHealthCheck rt service clients options) =
    match default true (checkEnvironment options), required_for service with
    | true, ReqArray keys =>
        let miss := List.filter (env_unset (env rt)) keys in
        if bool_decide (miss = []) then [] else [warning_line service miss]
    | _, _ => []
    end.
Proof.
  assert (console (after_environment rt service options) =
          match default true (checkEnvironment options), required_for service with
          | true, ReqArray keys =>
              let miss := List.filter (env_unset (env rt)) keys in
              if bool_decide (miss = []) then [] else [warning_line service miss]
          | _, _ => []
          end) as Henv.
  { unfold after_environment.
    destruct (default true (checkEnvironment options)); [|done].
    rewrite environmentCheck_console.
    unfold health_validation, validateServiceEnvironment.
    destruct (required_for service) as [keys|]; [|done].
    by rewrite validateEnvironment_console_cases. }
  unfold performHealthCheck. rewrite console_bind.
  assert (console (runChecks rt service clients options)
          = console (after_environment rt service options)) as ->.
  { unfold runChecks. rewrite console_bind.
    destruct (outcome (after_environment rt service options)) as [s|e]; [|done].
    destruct (default true (checkClients options)), clients;
      rewrite ?clientChecks_console; apply app_nil_r. }
  rewrite Henv.
  destruct (outcome (runChecks rt service clients options)) as [[checks st]|e];
    [apply app_nil_r|done].
Qed.

Lemma worst_Permutation (l l' : list check_status) :
  l ≡ₚ l' -> worst l = worst l'.
Proof.
  intros Hp.
  assert (forall f : check_status -> bool, existsb f l = existsb f l') as Hex.
  { intros f. induction Hp as [|x l l' Hp IH| x y l |l l' l'' H1 IH1 H2 IH2]; cbn.
    - done.
    - by rewrite IH.
    - by destruct (f x), (f y).
    - congruence. }
  unfold worst. by rewrite !Hex.
Qed.

Lemma clientCheck_written (name : string) (c : client)
    (checks checks' : list (string * value)) (st st' : overall) :
  outcome (clientCheck (name, c) (checks, st)) = Ok (checks', st') ->
  lookup_prop name checks' = written_record c.
Proof.
  rewrite clientCheck_outcome.
  destruct c as [| |[record|e]]; cbn -[get_prop lookup_prop set_prop].
  1-3: intros [= <- _]; apply lookup_set_prop_eq.
  destruct (outcome (get_prop e "message")); [|done].
  intros [= <- _]. apply lookup_set_prop_eq.
Qed.

Lemma clientChecks_written (entries : list (string * client))
    (checks checks' : list (string * value)) (st st' : overall)
    (name : string) (c : client) :
  NoDup entries.*1 ->
  (name, c) ∈ entries ->
  outcome (clientChecks entries (checks, st)) = Ok (checks', st') ->
  lookup_prop name checks' = written_record c.
Proof.
  revert checks st. induction entries as [|[name' c'] rest IH];
    intros checks st Hnd Hin E; [by apply elem_of_nil in Hin|].
  cbn [clientChecks] in E. rewrite outcome_bind in E.
  destruct (outcome (clientCheck (name', c') (checks, st)))
    as [[checks1 st1]|e] eqn:E1; [|done].
  cbn [fmap list_fmap fst] in Hnd. apply NoDup_cons in Hnd as [Hfresh Hnd].
  apply elem_of_cons in Hin as [[= <- <-]|Hin].
  - rewrite (clientChecks_untouched _ _ _ _ _ _ Hfresh E).
    by eapply clientCheck_written.
  - by eapply IH.
Qed.

(** X16. The result of [performHealthCheck] does not depend on the order of
    the client entries: for two orders of the same entries (names
    distinct, as the keys of an object are), the call returns for one iff
    it returns for the other, and the two reports have the same overall
    status and the same record under every check name. *)
Theorem performHealthCheck_order_insensitive (rt : Runtime) (service : string)
    (entries entries' : list (string * client)) (options : HealthOptions) :
  entries ≡ₚ entries' ->
  NoDup entries.*1 ->
  ((exists hd, outcome (performHealthCheck rt service (Some entries) options) = Ok hd)
   <-> (exists hd, outcome (performHealthCheck rt service (Some entries') options)
                   = Ok hd)) /\
  (forall hd hd',
     outcome (performHealthCheck rt service (Some entries) options) = Ok hd ->
     outcome (performHealthCheck rt service (Some entries') options) = Ok hd' ->
     reported_status hd = reported_status hd' /\
     forall k, reported_check hd k = reported_check hd' k).
Proof.
  intros Hperm Hnd.
  assert (NoDup entries'.*1) as Hnd' by by rewrite <- Hperm.
  split.
  - assert (forall l l' : list (string * client), l ≡ₚ l' ->
              (exists hd, outcome (performHealthCheck rt service (Some l) options)
                          = Ok hd) ->
              exists hd, outcome (performHealthCheck rt service (Some l') options)
                         = Ok hd) as Hone.
    { intros l l' Hp [hd H]. rewrite performHealthCheck_cases in H |- *.
      destruct (default true (checkClients options)); [|by eexists].
      cbn [default from_option id] in H |- *.
      destruct (classic_nullish l'.*2) as [Hex|Hnone].
      - destruct Hex as (c & Hin & Hc). rewrite <- Hp in Hin.
        destruct (clientChecks_throws l (after_state rt service options))
          as [E|E]; [by exists c| |]; by rewrite E in H.
      - destruct (clientChecks_returns l' (after_state rt service options))
          as [[checks st] ->]; [|by eexists].
        intros c Hin Hc. apply Hnone. by exists c. }
    split; apply Hone; [done|by symmetry].
  - intros hd hd' H H'. split.
    + rewrite (performHealthCheck_status _ _ _ _ _ H),
        (performHealthCheck_status _ _ _ _ _ H'). f_equal.
      apply worst_Permutation. unfold assigned_statuses.
      cbn [default from_option id]. apply Permutation_app; [done|].
      destruct (from_option id true (checkClients options)); [|done].
      by rewrite Hperm.
    + intros k. rewrite performHealthCheck_cases in H, H'.
      destruct (default true (checkClients options)); [|congruence].
      cbn [default from_option id] in H, H'.
      destruct (after_state rt service options) as [checks0 st0].
      destruct (outcome (clientChecks entries (checks0, st0)))
        as [[checks st]|?] eqn:E; [|done].
      destruct (outcome (clientChecks entries' (checks0, st0)))
        as [[checks' st']|?] eqn:E'; [|done].
      injection H as <-. injection H' as <-.
      rewrite !reported_check_healthReport.
      assert (lookup_prop k checks = lookup_prop k checks') as Hk.
      { destruct (decide (k ∈ entries.*1)) as [Hin|Hout].
        - apply list_elem_of_fmap in Hin as ([k0 c] & -> & Hin). cbn.
          rewrite (clientChecks_written _ _ _ _ _ _ _ Hnd Hin E).
          rewrite Hperm in Hin.
          by rewrite (clientChecks_written _ _ _ _ _ _ _ Hnd' Hin E').
        - rewrite (clientChecks_untouched _ _ _ _ _ _ Hout E).
          rewrite Hperm in Hout.
          by rewrite (clientChecks_untouched _ _ _ _ _ _ Hout E'). }
      unfold with_metrics. destruct (default false (includeMetrics options));
        [|done].
      destruct (String.eqb_spec k "performance") as [->|Hne].
      * by rewrite !lookup_set_prop_eq.
      * rewrite !lookup_set_prop_ne; done.
Qed.

(** X17. The handler that [healthCheckMiddleware] returns raises exactly on
    the events its guard cannot read: an event that is [null] or
    [undefined], and an event whose [path] is truthy and neither a string
    nor an array (a number, [true], an object), on which [includes] cannot
    be called.  Past the guard nothing escapes: not a failing health check,
    and not the construction of the error envelope. *)
Theorem healthCheckMiddleware_rejects_iff (rt : Runtime) (service : string)
    (clients : option (list (string * client))) (event : Event) :
  (exists e, outcome (healthCheckMiddleware rt service clients event) = Throw e)
  <-> event = EventNull \/ event = EventUndefined \/
      exists path query,
        event = EventObject path query /\ truthy path = true /\
        (forall p, path <> VStr p) /\ (forall items, path <> VArr items).
Proof.
  rewrite <- not_health_path_throws, healthCheckMiddleware_outcome.
  destruct (outcome (not_health_path event)) as [[|]|e] eqn:Hguard.
  - split; intros [? ?]; done.
  - split; [|intros [? ?]; done]. intros [e He]. exfalso.
    destruct (outcome (performHealthCheck rt service clients (middleware_options event)))
      as [hd|e'] eqn:Hcheck.
    + rewrite performHealthCheck_outcome in Hcheck.
      destruct (outcome (runChecks _ _ _ _)) as [[checks st]|?]; [|done].
      by injection Hcheck as <-.
    + destruct (performHealthCheck_throws_errors_only _ _ _ _ _ Hcheck) as [m ->].
      by destruct (middleware_catch_error rt service m) as (response & Hr & _);
        rewrite Hr in He.
  - split; intros _; by exists e.
Qed.

End HealthFurther.

(* ===================================================================== *)
(** ** Further properties of clients/aws-clients.js                        *)
(* ===================================================================== *)

Section ClientsFurther.
Import Environment Clients.

Ltac get_cases :=
  unfold getClient, getCognitoClient, getDynamoDbClient,
    createCognitoClient, createDynamoDbDocumentClient, alloc;
  repeat match goal with
  | |- context [match ?x with _ => _ end] =>
      lazymatch x with
      | context [match _ with _ => _ end] => fail
      | _ => destruct x eqn:?
      end
  end; cbn in *.

Lemma health_of_initialized (k : kind) (env : gmap string string) (s : State) :
  initialized (health_of k env s) = bool_decide (is_Some (slot k s)).
Proof. by destruct k. Qed.

Lemma step_fills (c : call) (env : gmap string string) (s : State) (k : kind) :
  is_reset c = false ->
  slot k s = None ->
  is_Some (slot k (step c env s).2) <-> fills k (c, env) = true.
Proof.
  intros Hc Hs. rewrite step_state. unfold fills. cbn [fst snd].
  destruct c as [k'| | |]; try done.
  - destruct k, k'; cbn [slot] in *.
    + rewrite (getClient_fills Cognito). cbn. split; [done|by eexists].
    + rewrite (getClient_other DynamoDb Cognito) by done. cbn. rewrite Hs.
      split; [by intros [? ?]|done].
    + rewrite (getClient_other Cognito DynamoDb) by done. cbn. rewrite Hs.
      split; [by intros [? ?]|done].
    + rewrite (getClient_fills DynamoDb). cbn. split; [done|by eexists].
  - rewrite initializeClients_state.
    destruct (node_env_is env "test"); cbn [negb].
    + rewrite Hs. split; [by intros [? ?]|done].
    + split; [done|intros _]. destruct k.
      * pose proof (getClient_fills Cognito env s) as Hf.
        rewrite (getClient_keeps_slot Cognito DynamoDb _ _ _ Hf). by eexists.
      * rewrite (getClient_fills DynamoDb). by eexists.
  - cbn. rewrite Hs. split; [by intros [? ?]|done].
Qed.

Lemma run_fills (calls : list (call * gmap string string)) (s : State) (k : kind) :
  forallb (fun c => negb (is_reset c.1)) calls = true ->
  is_Some (slot k (run calls s).2) <->
  is_Some (slot k s) \/ existsb (fills k) calls = true.
Proof.
  revert s. induction calls as [|[c env] rest IH]; intros s Hc.
  - cbn. split; [by left|]. by intros [?|?].
  - cbn in Hc. apply andb_true_iff in Hc as [Hc Hrest].
    apply negb_true_iff in Hc.
    rewrite run_cons. cbn [snd existsb]. rewrite (IH _ Hrest), orb_true_iff.
    destruct (slot k s) as [h|] eqn:Hs.
    + rewrite (step_keeps_slot c env s k h Hc Hs). split; intros _; left; by eexists.
    + rewrite (step_fills c env s k Hc Hs). split.
      * intros [?|?]; right; auto.
      * intros [[? ?]|[?|?]]; [done|by left|by right].
Qed.

(** X18. [getClientHealth] reports [initialized] for a kind exactly when,
    since the last [resetClients], a call has filled its slot: a
    [getClient] of that kind, or an [initializeClients] outside the "test"
    runtime mode.  In particular both kinds are uninitialized right after
    a reset, whatever came before. *)
Theorem getClientHealth_since_reset (s0 : State)
    (before after : list (call * gmap string string))
    (env_reset env : gmap string string) (k : kind) :
  forallb (fun c => negb (is_reset c.1)) after = true ->
  initialized
    (health_of k env (run (before ++ (CallReset, env_reset) :: after) s0).2)
  = existsb (fills k) after.
Proof.
  intros Hafter. rewrite health_of_initialized.
  assert (forall l1 l2 s, (run (l1 ++ l2) s).2 = (run l2 (run l1 s).2).2) as Happ.
  { induction l1 as [|[c e] l1 IH]; intros l2 s; [done|].
    cbn [app]. rewrite !run_cons. cbn [snd]. apply IH. }
  rewrite Happ, run_cons. cbn [step snd].
  pose proof (run_fills after (resetClients (run before s0).2) k Hafter) as H.
  assert (slot k (resetClients (run before s0).2) = None) as Hempty by by destruct k.
  rewrite Hempty in H.
  destruct (existsb (fills k) after).
  - apply bool_decide_eq_true. apply H. by right.
  - apply bool_decide_eq_false. intros Hs. apply H in Hs as [[? ?]|?]; done.
Qed.

(** X19. After a [getClient] on an empty slot, [isMock] tells whether the
    substitute was taken: it is set iff the runtime mode is "test" at the
    health call and was "test", with a substitute registered, at the
    [getClient] call; a client that was constructed is never reported as a
    mock. *)
Theorem isMock_after_getClient (k : kind) (env env' : gmap string string)
    (s : State) :
  wf s ->
  slot k s = None ->
  isMock (health_of k env' (getClient k env s).2)
  = node_env_is env' "test" && bool_decide (is_Some (substitute_taken k env s)).
Proof.
  intros Hwf Hslot.
  pose proof (getClient_empty_slot k env s Hslot) as H.
  pose proof (getClient_fills k env s) as Hf.
  destruct (getClient_extends k env s) as (Hm1 & Hm2 & _).
  set (registered := fun s' : State =>
         match k with
         | Cognito => mockCognitoClient s'
         | DynamoDb => mockDynamoDbDocumentClient s'
         end).
  assert (isMock (health_of k env' (getClient k env s).2)
          = node_env_is env' "test"
            && same_ref (slot k (getClient k env s).2)
                        (registered (getClient k env s).2)) as ->
    by by destruct k.
  assert (registered (getClient k env s).2 = registered s) as ->
    by by destruct k.
  assert (substitute k s = global_object (registered s)) as Hsub
    by by destruct k.
  rewrite Hf. f_equal.
  destruct (substitute_taken k env s) as [m|] eqn:Ht.
  - destruct H as [H _]. unfold substitute_taken in Ht.
    destruct (node_env_is env "test"); [|done].
    rewrite Hsub in Ht. apply global_object_Some in Ht. rewrite Ht, H. cbn.
    by rewrite bool_decide_eq_true_2.
  - destruct H as [Hnew _]. cbn.
    destruct (registered s) as [| |m] eqn:Hg; [done|done|]. cbn.
    apply bool_decide_eq_false. intros Heq. apply Hnew. rewrite Heq.
    apply Hwf. unfold registered in Hg. destruct k; auto.
Qed.

(** X20. [initializeClients] does nothing in the "test" runtime mode: no
    client is created and nothing is logged.  In every other mode it logs
    one line and leaves both slots filled, keeping a handle that was
    memoized already; calling it again changes nothing. *)
Theorem initializeClients_effect (env env2 : gmap string string) (s : State) :
  (node_env_is env "test" = true -> initializeClients env s = ([], s)) /\
  (node_env_is env "test" = false ->
     let s' := (initializeClients env s).2 in
     (initializeClients env s).1
       = ["AWS clients initialized for Lambda execution context reuse"] /\
     is_Some (cognitoClient s') /\ is_Some (dynamoDbDocumentClient s') /\
     (forall k h, slot k s = Some h -> slot k s' = Some h) /\
     (initializeClients env2 s').2 = s').
Proof.
  split.
  - intros Ht. unfold initializeClients. by rewrite Ht.
  - intros Ht s'.
    assert (s' = (getClient DynamoDb env (getClient Cognito env s).2).2) as Hs'.
    { unfold s'. by rewrite initializeClients_state, Ht. }
    pose proof (getClient_fills Cognito env s) as Hc.
    pose proof (getClient_keeps_slot Cognito DynamoDb env _ _ Hc) as Hc'.
    pose proof (getClient_fills DynamoDb env (getClient Cognito env s).2) as Hd.
    rewrite <- Hs' in Hc', Hd. cbn [slot] in Hc', Hd.
    split.
    { unfold initializeClients. rewrite Ht. cbn [negb].
      unfold getClient, getCognitoClient, getDynamoDbClient in *.
      destruct (createCognitoClient env s) as [h1 s1].
      by destruct (createDynamoDbDocumentClient env s1). }
    split; [by eexists|]. split; [by eexists|]. split.
    + intros k h Hk. rewrite Hs'. by do 2 apply getClient_keeps_slot.
    + rewrite initializeClients_state. destruct (node_env_is env2 "test"); [done|].
      rewrite (getClient_memoized Cognito env2 s' _ Hc'). cbn [snd].
      by rewrite (getClient_memoized DynamoDb env2 s' _ Hd).
Qed.

(** X21. When [createDynamoDbDocumentClient] has to construct (empty slot,
    no substitute taken), the document client it returns is a new object
    that wraps the memoized low-level client, with the marshalling options
    of the source; the low-level client is the one already memoized if
    there is one, and otherwise a new client with the SDK configuration,
    which is memoized too.  The identity-provider slot is not touched. *)
Theorem createDynamoDbDocumentClient_wraps_base (env : gmap string string)
    (s : State) :
  wf s ->
  dynamoDbDocumentClient s = None ->
  substitute_taken DynamoDb env s = None ->
  let d := (createDynamoDbDocumentClient env s).1 in
  let s' := (createDynamoDbDocumentClient env s).2 in
  exists b,
    dynamoDbClient s' = Some b /\
    dynamoDbDocumentClient s' = Some d /\
    heap s' !! d =
      Some (DynamoDBDocumentClient b
              {| removeUndefinedValues := true; convertEmptyValues := false;
                 convertClassInstanceToMap := false; wrapNumbers := false |}) /\
    d <> b /\ (d ∉ dom (heap s)) /\
    (forall b0, dynamoDbClient s = Some b0 -> b = b0) /\
    (dynamoDbClient s = None ->
       (b ∉ dom (heap s)) /\
       heap s' !! b = Some (DynamoDBClient (sdk_config env))) /\
    cognitoClient s' = cognitoClient s.
Proof.
  intros Hwf Hslot Htaken d s'. unfold d, s', createDynamoDbDocumentClient.
  rewrite Hslot. unfold substitute_taken in Htaken. cbn [substitute] in Htaken.
  assert (forall X : handle * State,
            match node_env_is env "test",
                  global_object (mockDynamoDbDocumentClient s) with
            | true, Some m => (m, s)
            | _, _ => X
            end = X) as Hskip.
  { intros X. destruct (node_env_is env "test"); [|done]. by rewrite Htaken. }
  destruct (dynamoDbClient s) as [b0|] eqn:Hb.
  - assert (b0 ∈ dom (heap s)) as Hin by (apply Hwf; auto).
    destruct (node_env_is env "test"); [rewrite Htaken|];
      cbn; exists b0; rewrite lookup_insert_eq;
      (repeat split; try done;
       [intros Heq; apply (is_fresh (dom (heap s))); by rewrite Heq
       |apply is_fresh | by intros ? [= ->]]).
  - set (b := fresh (dom (heap s))).
    set (heap1 := <[b := DynamoDBClient (sdk_config env)]> (heap s)).
    assert (fresh (dom heap1) ∉ dom heap1) as Hd by apply is_fresh.
    assert (b ∈ dom heap1) as Hb1.
    { apply elem_of_dom. exists (DynamoDBClient (sdk_config env)).
      apply lookup_insert_eq. }
    assert (dom (heap s) ⊆ dom heap1) as Hsub by apply dom_insert_subseteq.
    assert (b ∉ dom (heap s)) as Hbf by apply is_fresh.
    destruct (node_env_is env "test"); [rewrite Htaken|];
      cbn; fold b; fold heap1; exists b; rewrite lookup_insert_eq;
      (repeat split; try done;
       [ intros Heq; apply Hd; rewrite Heq; exact Hb1
       | intros Hin; apply Hd; by apply Hsub
       | rewrite lookup_insert_ne;
           [apply lookup_insert_eq
           | intros Heq; apply Hd; rewrite Heq; exact Hb1] ]).
Qed.

Lemma getClient_heap_persist (k : kind) (env : gmap string string) (s : State)
    (h : handle) (o : client_object) :
  heap s !! h = Some o -> heap (getClient k env s).2 !! h = Some o.
Proof.
  intros Hh.
  assert (h ∈ dom (heap s)) as Hin by (apply elem_of_dom; by eexists).
  assert (forall (m : gmap handle client_object) x,
            dom (heap s) ⊆ dom m -> m !! h = Some o ->
            <[fresh (dom m) := x]> m !! h = Some o) as Hins.
  { intros m x Hsub Hm. rewrite lookup_insert_ne; [done|].
    intros Heq. apply (is_fresh (dom m)). rewrite Heq. by apply Hsub. }
  destruct k; get_cases; try done;
    repeat (apply Hins; [first [done | apply dom_insert_subseteq]|]); done.
Qed.

Lemma step_heap_persist (c : call) (env : gmap string string) (s : State)
    (h : handle) (o : client_object) :
  heap s !! h = Some o -> heap (step c env s).2 !! h = Some o.
Proof.
  intros Hh. rewrite step_state. destruct c; try done.
  - by apply getClient_heap_persist.
  - rewrite initializeClients_state. destruct (node_env_is env "test"); [done|].
    by do 2 apply getClient_heap_persist.
Qed.

(** X22. No call ever changes or removes a client object, and no call
    touches the registered substitutes: after any sequence of calls,
    resets included, every handle that named an object still names the same
    object. *)
Theorem registry_objects_persist (calls : list (call * gmap string string))
    (s : State) :
  (forall h o, heap s !! h = Some o -> heap (run calls s).2 !! h = Some o) /\
  mockCognitoClient (run calls s).2 = mockCognitoClient s /\
  mockDynamoDbDocumentClient (run calls s).2 = mockDynamoDbDocumentClient s.
Proof.
  split.
  - revert s. induction calls as [|[c env] rest IH]; intros s h o Hh; [done|].
    rewrite run_cons. cbn [snd]. by apply IH, step_heap_persist.
  - by destruct (run_extends calls s) as (? & ? & _).
Qed.

End ClientsFurther.

(* ===================================================================== *)
(** ** Further properties of maskSensitiveEnvVars                          *)
(* ===================================================================== *)

Section MaskingFurther.
Import Masking.

Lemma append_assoc (a b c : string) : (a +:+ b) +:+ c = a +:+ b +:+ c.
Proof.
  induction a as [|x a IH]; [done|].
  change (String x ((a +:+ b) +:+ c) = String x (a +:+ b +:+ c)). by rewrite IH.
Qed.

Lemma upper_ascii_idem (c : ascii) : upper_ascii (upper_ascii c) = upper_ascii c.
Proof. destruct c as [[] [] [] [] [] [] [] []]; reflexivity. Qed.

Lemma toUpperCase_idem (s : string) : toUpperCase (toUpperCase s) = toUpperCase s.
Proof. induction s as [|c s IH]; cbn; [done|by rewrite upper_ascii_idem, IH]. Qed.

Lemma toUpperCase_app (a b : string) :
  toUpperCase (a +:+ b) = toUpperCase a +:+ toUpperCase b.
Proof.
  induction a as [|c a IH]; [done|].
  change (String (upper_ascii c) (toUpperCase (a +:+ b))
          = String (upper_ascii c) (toUpperCase a +:+ toUpperCase b)).
  by rewrite IH.
Qed.

(** The content of the object [maskSensitiveEnvVars] returns. *)
Lemma mask_content (process_env : loc) (env : option loc)
    (σ : gmap loc (gmap string value)) (input : gmap string value) :
  σ !! default process_env env = Some input ->
  (maskSensitiveEnvVars process_env env σ).1
    = <[(maskSensitiveEnvVars process_env env σ).2
          := mask_keys (object_keys input) input]> σ.
Proof.
  intros Hin. unfold maskSensitiveEnvVars. cbn [fst snd].
  rewrite lookup_insert_eq, Hin.
  change (default ∅ (Some input)) with input.
  apply mask_loop_store.
Qed.

(** X23. Masking keeps the key set of the input, and masking an already
    masked mapping changes nothing more: the second result is a further new
    object with the same entries as the first. *)
Theorem maskSecrets_idempotent (process_env : loc) (env : option loc)
    (σ : gmap loc (gmap string value)) (input : gmap string value) :
  σ !! default process_env env = Some input ->
  let first := maskSensitiveEnvVars process_env env σ in
  let second := maskSensitiveEnvVars process_env (Some first.2) first.1 in
  exists out,
    first.1 !! first.2 = Some out /\
    dom out = dom input /\
    second.2 <> first.2 /\
    second.1 !! second.2 = Some out /\
    second.1 !! first.2 = Some out.
Proof.
  intros Hin first second.
  pose proof (mask_content process_env env σ input Hin) as H1. fold first in H1.
  set (out := mask_keys (object_keys input) input) in *.
  assert (first.1 !! first.2 = Some out) as Hout
    by (rewrite H1; apply lookup_insert_eq).
  assert (forall key, is_Some (out !! key) <-> is_Some (input !! key)) as Hsome.
  { intros key. unfold out. rewrite mask_keys_lookup. case_decide as H; [|done].
    destruct H as [H _]. apply object_keys_spec in H. split; [done|by eexists]. }
  pose proof (mask_content process_env (Some first.2) first.1 out Hout) as H2.
  fold second in H2.
  assert (mask_keys (object_keys out) out = out) as Hidem.
  { apply map_eq. intros key. rewrite mask_keys_lookup.
    case_decide as H; [|done]. destruct H as [Hk Hs].
    apply object_keys_spec, Hsome, object_keys_spec in Hk.
    unfold out. rewrite mask_keys_lookup. by rewrite decide_True. }
  rewrite Hidem in H2.
  assert (second.2 <> first.2) as Hne.
  { intros Heq. apply (is_fresh (dom first.1)).
    change (fresh (dom first.1)) with second.2. rewrite Heq.
    apply elem_of_dom. by eexists. }
  exists out. split; [done|]. split.
  { apply set_eq. intros key. by rewrite !elem_of_dom. }
  split; [done|]. rewrite H2. split; [apply lookup_insert_eq|].
  by rewrite lookup_insert_ne.
Qed.

(** X24. Whether a key is masked depends on its letters only up to case,
    and a key that contains a masked key is masked as well. *)
Theorem is_sensitive_closed (key : string) :
  is_sensitive (toUpperCase key) = is_sensitive key /\
  (forall key', toUpperCase key' = toUpperCase key ->
     is_sensitive key' = is_sensitive key) /\
  (is_sensitive key = true ->
     forall pre post, is_sensitive (pre +:+ key +:+ post) = true).
Proof.
  split; [|split].
  - unfold is_sensitive. by rewrite toUpperCase_idem.
  - intros key' Heq. unfold is_sensitive. by rewrite Heq.
  - unfold is_sensitive. intros H pre post.
    apply existsb_exists in H as (d & Hd & Hinc). apply existsb_exists.
    exists d. split; [done|].
    apply includes_spec in Hinc as (p & q & Hk). apply includes_spec.
    exists (toUpperCase pre +:+ p), (q +:+ toUpperCase post).
    by rewrite !toUpperCase_app, Hk, !append_assoc.
Qed.

End MaskingFurther.

(* ===================================================================== *)
(** ** The further properties at sample inputs                             *)
(* ===================================================================== *)

Section FurtherExamples.
Import Environment Health Clients Masking Samples.

Lemma validateEnvironment_throwOnMissing_witness :
  (exists e,
     outcome (validateEnvironment env_partial (ReqArray ["COGNITO_USER_POOL_ID"])
                options_throwing) = Throw e)
  <-> default true (skipInProduction options_throwing)
        && node_env_is env_partial "production" = false /\
      exists k, k ∈ ["COGNITO_USER_POOL_ID"] /\
                (env_partial !! k = Some "" \/
                 (env_partial !! k = None /\ k ∉ object_prototype_keys)).
Proof.
  exact (proj1
    (validateEnvironment_throwOnMissing env_partial ["COGNITO_USER_POOL_ID"]
       options_throwing eq_refl)).
Defined.

Lemma validateEnvironment_after_setting_witness :
  ["COGNITO_USER_POOL_CLIENT_ID"]
  = List.filter (fun x => negb (String.eqb x "COGNITO_USER_POOL_ID"))
      ["COGNITO_USER_POOL_ID"; "COGNITO_USER_POOL_CLIENT_ID"].
Proof.
  exact (validateEnvironment_after_setting env_partial
    ["DYNAMODB_TABLE_NAME"; "COGNITO_USER_POOL_ID"; "COGNITO_USER_POOL_CLIENT_ID"]
    no_options "COGNITO_USER_POOL_ID" "pool-1" _ _
    ltac:(discriminate) ltac:(discriminate) eq_refl eq_refl eq_refl).
Defined.

Lemma validateServiceEnvironment_unlisted_service_witness :
  exists r,
    validateServiceEnvironment env_partial "billing-service" options_throwing
      = ret r /\
    valid r = true /\ missing r = [] /\ warnings r = [].
Proof.
  exact (validateServiceEnvironment_unlisted_service env_partial "billing-service"
           options_throwing eq_refl eq_refl).
Defined.

Lemma validateServiceEnvironment_inherited_name_witness :
  outcome (validateServiceEnvironment env_partial "constructor" no_options)
  = Throw (VErr "requiredVars.filter is not a function").
Proof.
  exact (validateServiceEnvironment_inherited_name env_partial "constructor"
           no_options ltac:(by left)).
Defined.

Lemma validateServiceEnvironment_name_override_witness :
  v_serviceName
    {| valid := false;
       missing := ["COGNITO_USER_POOL_ID"; "COGNITO_USER_POOL_CLIENT_ID"];
       warnings :=
         ["gateway: Missing environment variables: COGNITO_USER_POOL_ID, COGNITO_USER_POOL_CLIENT_ID"];
       v_serviceName := Some "gateway" |}
  = Some "gateway".
Proof.
  exact (proj1
    (validateServiceEnvironment_name_override env_partial "auth-service"
       ["DYNAMODB_TABLE_NAME"; "COGNITO_USER_POOL_ID"; "COGNITO_USER_POOL_CLIENT_ID"]
       options_renamed _ eq_refl eq_refl eq_refl)).
Defined.


Lemma performHealthCheck_metrics_witness :
  match outcome (performHealthCheck (runtime_of env_complete) "auth-service"
                   clients_absent options_with_metrics) with
  | Ok hd => reported_check hd "performance"
  | Throw _ => VUndefined
  end = performance_record (runtime_of env_complete).
Proof.
  exact (proj1
    (performHealthCheck_metrics (runtime_of env_complete) "auth-service"
       clients_absent options_with_metrics _ eq_refl) eq_refl).
Defined.

Lemma healthCheckMiddleware_meta_witness :
  match outcome (healthCheckMiddleware (runtime_of env_versioned) "auth-service"
                   clients_absent health_event) with
  | Ok (Some response) => body_meta response "version"
  | _ => VUndefined
  end = VStr "1.0.0".
Proof.
  exact (proj1 (proj2 (proj2 (proj2
    (healthCheckMiddleware_meta (runtime_of env_versioned) "auth-service"
       clients_absent health_event _ eq_refl))))).
Defined.

Lemma performHealthCheck_order_insensitive_witness :
  (exists hd,
     outcome (performHealthCheck (runtime_of env_complete) "auth-service"
                (Some [ ("cognito", ClientPlain); ("dynamo", ClientAbsent) ])
                default_options) = Ok hd)
  <-> (exists hd,
         outcome (performHealthCheck (runtime_of env_complete) "auth-service"
                    (Some [ ("dynamo", ClientAbsent); ("cognito", ClientPlain) ])
                    default_options) = Ok hd).
Proof.
  refine (proj1
    (performHealthCheck_order_insensitive (runtime_of env_complete) "auth-service"
       [ ("cognito", ClientPlain); ("dynamo", ClientAbsent) ]
       [ ("dynamo", ClientAbsent); ("cognito", ClientPlain) ]
       default_options (perm_swap _ _ _) _)).
  cbn. apply NoDup_cons_2; [|apply NoDup_singleton].
  intros H. apply list_elem_of_singleton in H. discriminate H.
Defined.

Lemma getClientHealth_since_reset_witness :
  initialized
    (health_of Cognito env_production
       (run ([ (CallGet Cognito, env_test); (CallGet DynamoDb, env_test) ]
             ++ (CallReset, env_test)
                :: [ (CallGet DynamoDb, env_production); (CallHealth, env_test) ])
          registry_with_substitutes).2)
  = false.
Proof.
  exact (getClientHealth_since_reset registry_with_substitutes
           [ (CallGet Cognito, env_test); (CallGet DynamoDb, env_test) ]
           [ (CallGet DynamoDb, env_production); (CallHealth, env_test) ]
           env_test env_production Cognito eq_refl).
Defined.

Lemma isMock_after_getClient_witness :
  isMock (health_of Cognito env_test
            (getClient Cognito env_production registry_with_substitutes).2)
  = false.
Proof.
  exact (isMock_after_getClient Cognito env_production env_test
           registry_with_substitutes registry_with_substitutes_wf eq_refl).
Defined.

Lemma createDynamoDbDocumentClient_wraps_base_witness :
  exists b,
    dynamoDbClient
      (createDynamoDbDocumentClient env_production registry_with_substitutes).2
      = Some b /\
    dynamoDbDocumentClient
      (createDynamoDbDocumentClient env_production registry_with_substitutes).2
      = Some (createDynamoDbDocumentClient env_production
                registry_with_substitutes).1.
Proof.
  destruct (createDynamoDbDocumentClient_wraps_base env_production
              registry_with_substitutes registry_with_substitutes_wf
              eq_refl eq_refl) as (b & Hb & Hd & _).
  exists b. by split.
Defined.

Lemma maskSecrets_idempotent_witness :
  exists out,
    (maskSensitiveEnvVars 1%positive None secrets_store).1
      !! (maskSensitiveEnvVars 1%positive None secrets_store).2 = Some out /\
    dom out = dom secrets_input.
Proof.
  destruct (maskSecrets_idempotent 1%positive None secrets_store secrets_input
              eq_refl) as (out & H1 & H2 & _).
  exists out. by split.
Defined.

End FurtherExamples.
